(** * Sliding windows of the solar radio spectrogram tools

    A shallow embedding of the acquisition and windowing core of
    [src/plot_inno2.py] (synthetic source, three ring buffers) and
    [src/plot_tcp.py] (socket source, one timestamped deque), with the
    properties of the specification stated over it.

    Conventions.
    - Magnitudes and [time.time()] readings are IEEE doubles in the
      programs; a finite double is modelled as the rational [Q] it
      denotes. Stores and comparisons are exact on doubles. The mean
      spectrum, whose largest entry the program looks for, is computed
      with the rounding of every addition and of the division
      ([Np.mean_axis0_double]); the frequency and time axes are kept
      exact.
    - A float32 read from the socket is kept as its 32-bit pattern.
    - A numpy 2-D array is a list of rows; [buf[i, :] = x] is the list
      update [<[i:=x]> buf].
    - Clock readings, received chunks, the results of [int] on the entry
      texts and the arrays numpy can create are inputs of the functions
      that consume them. *)

From Stdlib Require Import ZArith QArith Qabs Qfield Lqa Lia Bool String.
From Stdlib.Strings Require Import Byte.
From stdpp Require Import base list sorting.

Local Open Scope nat_scope.

(** ** numpy helpers shared by both programs *)

Module Np.

(** Strict comparison [x < y] on magnitudes and times. *)
Definition Qltb (x y : Q) : bool := negb (Qle_bool y x).

(** [np.linspace(a, b, m)]: [m] points, both ends included. *)
Definition linspace (a b : Q) (m : nat) : list Q :=
  map (fun i => (a + inject_Z (Z.of_nat i) * ((b - a) / inject_Z (Z.of_nat (m - 1))))%Q)
      (seq 0 m).

(** [np.argmax(v)]: scan left to right, replace the running best only by a
    strictly larger entry, so the first maximum is kept. *)
Fixpoint argmax_from (best_i : nat) (best : Q) (i : nat) (v : list Q) : nat :=
  match v with
  | [] => best_i
  | x :: v' =>
      if Qltb best x then argmax_from i x (S i) v'
      else argmax_from best_i best (S i) v'
  end.

Definition argmax (v : list Q) : nat :=
  match v with
  | [] => 0
  | x :: v' => argmax_from 0 x 1 v'
  end.

(** Column sums of a 2-D array with [cols] columns. *)
Definition sum_axis0 (cols : nat) (a : list (list Q)) : list Q :=
  foldr (zip_with Qplus) (replicate cols 0%Q) a.

(** The column-wise arithmetic mean, exact: [np.mean(a, axis=0)] without
    its rounding. *)
Definition mean_axis0 (cols : nat) (a : list (list Q)) : list Q :=
  map (fun s => (s / inject_Z (Z.of_nat (length a)))%Q) (sum_axis0 cols a).

(** Python's [int(x)] on a float: truncation toward zero. *)
Definition int_of_float (x : Q) : Z := Z.quot (Qnum x) (Zpos (Qden x)).

(** [np.all(a == 0)]. *)
Definition all_zero (a : list (list Q)) : bool :=
  forallb (forallb (fun x => Qeq_bool x 0)) a.

(** *** Double precision

    Where the result of the program depends on the rounding of a double
    operation, the operation is modelled with its rounding. A finite double
    is the rational it denotes; the infinities are the rationals
    [2^1024] and [- 2^1024], which no finite double reaches. No operation
    below produces a NaN from finite arguments. *)

Definition pow2 (e : Z) : Q :=
  if (0 <=? e)%Z then inject_Z (2 ^ e) else (/ inject_Z (2 ^ (- e)))%Q.

(** The exponent [e] with [2^e <= x < 2^(e+1)], for [x > 0]. *)
Definition floor_log2 (x : Q) : Z :=
  let e := (Z.log2 (Qnum x) - Z.log2 (Zpos (Qden x)))%Z in
  if Qle_bool (pow2 e) x then e else (e - 1)%Z.

(** The nearest integer, the even one of two equally near. *)
Definition round_half_even (x : Q) : Z :=
  let d := Zpos (Qden x) in
  let q := (Qnum x / d)%Z in
  let r := (Qnum x mod d)%Z in
  match (2 * r ?= d)%Z with
  | Lt => q
  | Gt => (q + 1)%Z
  | Eq => if Z.even q then q else (q + 1)%Z
  end.

Definition inf : Q := inject_Z (2 ^ 1024).

Definition is_inf (x : Q) : bool := Qle_bool inf (Qabs x).

(** Rounding to the nearest double, ties to even: 53 significant bits,
    least exponent [-1074], overflow to an infinity. *)
Definition float64 (x : Q) : Q :=
  if Qeq_bool x 0 then 0%Q
  else
    let a := Qabs x in
    let p := Z.max (floor_log2 a - 52) (-1074) in
    let y := (inject_Z (round_half_even (a / pow2 p)) * pow2 p)%Q in
    let y' := if Qle_bool inf y then inf else y in
    if Qle_bool 0 x then y' else (- y')%Q.

(** [x + y] and [x / y] on doubles, [x] finite or infinite, [y] finite and,
    for the division, positive. *)
Definition add (x y : Q) : Q :=
  if is_inf x then x else if is_inf y then y else float64 (x + y).

Definition true_divide (x y : Q) : Q :=
  if is_inf x then x else float64 (x / y).

(** [np.mean(a, axis=0)] as numpy computes it on a C-ordered array of
    doubles with at least one row: the rows are added one after the other
    onto the first, each addition rounded, and every column sum is divided
    by the row count. (With a single column numpy adds in another order;
    the result then has one entry, whose [argmax] is 0 whatever its value.)
    No buffer of the programs has zero rows. *)
Definition mean_axis0_double (cols : nat) (a : list (list Q)) : list Q :=
  match a with
  | [] => replicate cols 0%Q
  | r :: a' =>
      map (fun s => true_divide s (inject_Z (Z.of_nat (length a))))
          (foldl (zip_with add) r a')
  end.

(** Which arrays numpy can create. [np.linspace(a, b, num)] and
    [np.zeros((rows, cols))] raise for sizes the platform cannot hold; the
    programs do not catch that. *)
Record platform := {
  linspace_returns : Z -> bool;
  zeros_returns : nat -> Z -> bool
}.

(** A platform on which every array can be created, and one that cannot
    hold more than a million entries. *)
Definition roomy : platform :=
  {| linspace_returns := fun _ => true; zeros_returns := fun _ _ => true |}.

Definition tight : platform :=
  {| linspace_returns := fun num => (num <=? 1000000)%Z;
     zeros_returns := fun rows cols => (Z.of_nat rows * cols <=? 1000000)%Z |}.

End Np.

(** ** What the interpreter and numpy may refuse *)

Module Py.

(** Exceptions that [start_observation] does not catch. Tk reports them and
    the main loop goes on. [ArrayTooLarge] stands for the [MemoryError] or
    [ValueError] of numpy for an array it cannot create. *)
Inductive exn := OverflowError | ArrayTooLarge.

(** [x / 2] on an [int] is the correctly rounded double; it raises
    [OverflowError] when that double would reach [2^1024]. *)
Definition half_raises (x : Z) : bool := (2 ^ 1025 - 2 ^ 971 <=? x)%Z.

End Py.

(** ** The synthetic program, [src/plot_inno2.py] *)

Module Inno2.

Definition row := list Q.

(** The three ring buffers of [start_observation] with their write
    cursors. [cols] is [self.n]. *)
Record windows := {
  cols : nat;
  live_steps : nat;
  save_steps : nat;
  avg_steps : nat;
  live_buffer : list row;
  save_buffer : list row;
  avg_buffer : list row;
  live_index : nat;
  save_index : nat;
  avg_index : nat
}.

(** [np.zeros((steps, n))]. *)
Definition zeros (steps n : nat) : list row := replicate steps (replicate n 0%Q).

(** Zero-filled buffers of [ls], [ss] and [vs] rows of [n] entries, with the
    three cursors at 0. [start_observation] uses the sizes of [fresh] below;
    the sizes are kept general so that small instances can be computed. *)
Definition alloc (ls ss vs n : nat) : windows :=
  {| cols := n;
     live_steps := ls; save_steps := ss; avg_steps := vs;
     live_buffer := zeros ls n; save_buffer := zeros ss n; avg_buffer := zeros vs n;
     live_index := 0; save_index := 0; avg_index := 0 |}.

(** The constants of [__init__]. *)
Definition live_duration : Q := 10.
Definition save_duration : Q := 60.
Definition avg_duration : Q := 30.
Definition data_interval : Q := 2 # 100.

(** [int(duration / self.data_interval)]. The exact quotients are 500, 3000
    and 1500, the values the float division gives too. *)
Definition steps_of (duration : Q) : nat :=
  Z.to_nat (Np.int_of_float (duration / data_interval)).

(** The buffers as [start_observation] allocates them. *)
Definition fresh (n : nat) : windows :=
  alloc (steps_of live_duration) (steps_of save_duration) (steps_of avg_duration) n.

(** The six assignments of [generate_data] inside [with self.lock], one
    function per statement. *)
Definition with_live (w : windows) (buf : list row) (idx : nat) : windows :=
  {| cols := cols w;
     live_steps := live_steps w; save_steps := save_steps w; avg_steps := avg_steps w;
     live_buffer := buf; save_buffer := save_buffer w; avg_buffer := avg_buffer w;
     live_index := idx; save_index := save_index w; avg_index := avg_index w |}.

Definition with_save (w : windows) (buf : list row) (idx : nat) : windows :=
  {| cols := cols w;
     live_steps := live_steps w; save_steps := save_steps w; avg_steps := avg_steps w;
     live_buffer := live_buffer w; save_buffer := buf; avg_buffer := avg_buffer w;
     live_index := live_index w; save_index := idx; avg_index := avg_index w |}.

Definition with_avg (w : windows) (buf : list row) (idx : nat) : windows :=
  {| cols := cols w;
     live_steps := live_steps w; save_steps := save_steps w; avg_steps := avg_steps w;
     live_buffer := live_buffer w; save_buffer := save_buffer w; avg_buffer := buf;
     live_index := live_index w; save_index := save_index w; avg_index := idx |}.

(** [self.live_buffer[self.live_index, :] = new_sample] *)
Definition write_live (x : row) (w : windows) : windows :=
  with_live w (<[live_index w := x]> (live_buffer w)) (live_index w).
(** [self.live_index = (self.live_index + 1) % self.live_steps] *)
Definition advance_live (w : windows) : windows :=
  with_live w (live_buffer w) ((live_index w + 1) mod live_steps w).
(** [self.save_buffer[self.save_index, :] = new_sample] *)
Definition write_save (x : row) (w : windows) : windows :=
  with_save w (<[save_index w := x]> (save_buffer w)) (save_index w).
(** [self.save_index = (self.save_index + 1) % self.save_steps] *)
Definition advance_save (w : windows) : windows :=
  with_save w (save_buffer w) ((save_index w + 1) mod save_steps w).
(** [self.avg_buffer[self.avg_index, :] = new_sample] *)
Definition write_avg (x : row) (w : windows) : windows :=
  with_avg w (<[avg_index w := x]> (avg_buffer w)) (avg_index w).
(** [self.avg_index = (self.avg_index + 1) % self.avg_steps] *)
Definition advance_avg (w : windows) : windows :=
  with_avg w (avg_buffer w) ((avg_index w + 1) mod avg_steps w).

(** One iteration of [generate_data]: the whole body of [with self.lock]. *)
Definition push (w : windows) (new_sample : row) : windows :=
  advance_avg (write_avg new_sample
    (advance_save (write_save new_sample
      (advance_live (write_live new_sample w))))).

Definition pushes (w : windows) (samples : list row) : windows :=
  foldl push w samples.

(** The read-out used by [update_plot] and [save_outputs]:
    [buf.copy()] when the cursor is 0, else
    [np.vstack((buf[idx:, :], buf[:idx, :]))]. *)
Definition chronological (buf : list row) (idx : nat) : list row :=
  if idx =? 0 then buf else drop idx buf ++ take idx buf.

Definition data_to_plot (w : windows) : list row :=
  chronological (live_buffer w) (live_index w).

Definition avg_data (w : windows) : list row :=
  chronological (avg_buffer w) (avg_index w).

Definition data_60s (w : windows) : list row :=
  chronological (save_buffer w) (save_index w).

(** Second critical section of [update_plot]. *)
Definition peak_freq (w : windows) (freqs : list Q) : Q :=
  let avg_spectrum := Np.mean_axis0_double (cols w) (avg_data w) in
  nth (Np.argmax avg_spectrum) freqs 0%Q.

(** One render tick. [w] is the state seen by the first critical section
    and [w'] the one seen by the second ([w' = w] when the producer did not
    run in between). [None] is the early return: nothing is drawn and the
    label keeps its text. *)
Definition update_plot (w w' : windows) (freqs : list Q) : option (list row * Q) :=
  if Np.all_zero (live_buffer w) then None
  else Some (data_to_plot w, peak_freq w' freqs).

(** Files written by [save_outputs]. *)
Inductive file :=
| Fits (name : string) (time_axis : list Q) (FS NFFT : Z) (freq : list Q) (data : list row)
| Png (name : string) (image : list row).

(** [save_outputs]; [base_name] is the name built from [datetime.now()]. *)
Definition save_outputs (w : windows) (fs n : Z) (freqs : list Q) (base_name : string)
  : list file :=
  if Np.all_zero (save_buffer w) then []
  else
    let data := data_60s w in
    let rel_times_60s := Np.linspace (- save_duration) 0 (save_steps w) in
    [Fits (base_name ++ ".fits") rel_times_60s fs n freqs data;
     Png (base_name ++ ".png") data].

(** Shape of the buffers: each has as many rows as its [_steps] and its
    cursor points inside it. *)
Definition wf (w : windows) : Prop :=
  (length (live_buffer w) = live_steps w /\ live_index w < live_steps w) /\
  (length (save_buffer w) = save_steps w /\ save_index w < save_steps w) /\
  (length (avg_buffer w) = avg_steps w /\ avg_index w < avg_steps w).

(** *** Session start *)

Inductive thread := GenerateData | AutoSave.

(** The attributes of [SpectrogramApp] that the session logic touches.
    [None] is an attribute that has not been assigned yet. [steps] holds
    [live_steps], [save_steps] and [avg_steps], [live], [save] and [avg] the
    three buffers and [indexes] the three cursors. [threads] lists the
    threads started so far, [dialogs] the error boxes shown and [uncaught]
    the exceptions that left a callback. *)
Record app := {
  fs : option Z;
  n : option Z;
  freqs : option (list Q);
  running : bool;
  steps : option (nat * nat * nat);
  live : option (list row);
  save : option (list row);
  avg : option (list row);
  indexes : option (nat * nat * nat);
  threads : list thread;
  dialogs : list string;
  uncaught : list Py.exn
}.

(** The object left by [__init__]. *)
Definition init : app :=
  {| fs := None; n := None; freqs := None; running := false;
     steps := None; live := None; save := None; avg := None; indexes := None;
     threads := []; dialogs := []; uncaught := [] |}.

(** The buffers and cursors as the producer and the readers see them, when
    all of them exist. *)
Definition wins (a : app) : option windows :=
  match n a, steps a, live a, save a, avg a, indexes a with
  | Some k, Some (ls, ss, vs), Some lb, Some sb, Some ab, Some (li, si, vi) =>
      Some {| cols := Z.to_nat k;
              live_steps := ls; save_steps := ss; avg_steps := vs;
              live_buffer := lb; save_buffer := sb; avg_buffer := ab;
              live_index := li; save_index := si; avg_index := vi |}
  | _, _, _, _, _, _ => None
  end.

Definition set_fs (a : app) (v : Z) : app :=
  {| fs := Some v; n := n a; freqs := freqs a; running := running a;
     steps := steps a; live := live a; save := save a; avg := avg a;
     indexes := indexes a;
     threads := threads a; dialogs := dialogs a; uncaught := uncaught a |}.

Definition set_n (a : app) (v : Z) : app :=
  {| fs := fs a; n := Some v; freqs := freqs a; running := running a;
     steps := steps a; live := live a; save := save a; avg := avg a;
     indexes := indexes a;
     threads := threads a; dialogs := dialogs a; uncaught := uncaught a |}.

(** [messagebox.showerror(...)] followed by [return]. *)
Definition showerror (a : app) : app :=
  {| fs := fs a; n := n a; freqs := freqs a; running := running a;
     steps := steps a; live := live a; save := save a; avg := avg a;
     indexes := indexes a;
     threads := threads a;
     dialogs := dialogs a ++ ["Please enter positive integers for Fs and N."%string];
     uncaught := uncaught a |}.

(** An exception outside the [try] block ends the call where it is. *)
Definition raise (a : app) (e : Py.exn) : app :=
  {| fs := fs a; n := n a; freqs := freqs a; running := running a;
     steps := steps a; live := live a; save := save a; avg := avg a;
     indexes := indexes a;
     threads := threads a; dialogs := dialogs a; uncaught := uncaught a ++ [e] |}.

(** Lines 81 to 86: the frequency axis, the running flag, the three sizes. *)
Definition begin_session (a : app) (fr : list Q) : app :=
  {| fs := fs a; n := n a; freqs := Some fr; running := true;
     steps := Some (steps_of live_duration, steps_of save_duration, steps_of avg_duration);
     live := live a; save := save a; avg := avg a;
     indexes := indexes a;
     threads := threads a; dialogs := dialogs a; uncaught := uncaught a |}.

Definition set_live (a : app) (buf : list row) : app :=
  {| fs := fs a; n := n a; freqs := freqs a; running := running a;
     steps := steps a; live := Some buf; save := save a; avg := avg a;
     indexes := indexes a;
     threads := threads a; dialogs := dialogs a; uncaught := uncaught a |}.

Definition set_save (a : app) (buf : list row) : app :=
  {| fs := fs a; n := n a; freqs := freqs a; running := running a;
     steps := steps a; live := live a; save := Some buf; avg := avg a;
     indexes := indexes a;
     threads := threads a; dialogs := dialogs a; uncaught := uncaught a |}.

Definition set_avg (a : app) (buf : list row) : app :=
  {| fs := fs a; n := n a; freqs := freqs a; running := running a;
     steps := steps a; live := live a; save := save a; avg := Some buf;
     indexes := indexes a;
     threads := threads a; dialogs := dialogs a; uncaught := uncaught a |}.

(** Lines 92 to 98: the cursors, then the two threads. *)
Definition launch (a : app) : app :=
  {| fs := fs a; n := n a; freqs := freqs a; running := running a;
     steps := steps a; live := live a; save := save a; avg := avg a;
     indexes := Some (0, 0, 0);
     threads := threads a ++ [GenerateData; AutoSave];
     dialogs := dialogs a; uncaught := uncaught a |}.

(** [start_observation]. [fs_int] and [n_int] are the results of [int] on
    the texts of the two entries, [None] when [int] raises [ValueError];
    [np] tells which arrays numpy can create. The [try] block assigns
    [self.fs] and [self.n] one after the other, then checks the [assert];
    any exception there shows the error box and returns. What follows is
    outside the [try]: [self.fs / 2] can raise, [np.linspace] can, and each
    [np.zeros] can, after [self.running] has been set. The button states and
    the first call of [update_plot] are left out. *)
Definition start_observation (np : Np.platform) (fs_int n_int : option Z) (a : app) : app :=
  match fs_int with
  | None => showerror a
  | Some f =>
      let a1 := set_fs a f in
      match n_int with
      | None => showerror a1
      | Some k =>
          let a2 := set_n a1 k in
          if (0 <? f)%Z && (0 <? k)%Z then
            if Py.half_raises f then raise a2 Py.OverflowError
            else if negb (Np.linspace_returns np k) then raise a2 Py.ArrayTooLarge
            else
              let a3 := begin_session a2 (Np.linspace 0 (inject_Z f / 2) (Z.to_nat k)) in
              if negb (Np.zeros_returns np (steps_of live_duration) k)
              then raise a3 Py.ArrayTooLarge
              else
                let a4 := set_live a3 (zeros (steps_of live_duration) (Z.to_nat k)) in
                if negb (Np.zeros_returns np (steps_of save_duration) k)
                then raise a4 Py.ArrayTooLarge
                else
                  let a5 := set_save a4 (zeros (steps_of save_duration) (Z.to_nat k)) in
                  if negb (Np.zeros_returns np (steps_of avg_duration) k)
                  then raise a5 Py.ArrayTooLarge
                  else launch (set_avg a5 (zeros (steps_of avg_duration) (Z.to_nat k)))
          else showerror a2
      end
  end.

(** The calls of [start_observation] that reach its last line: both
    numbers positive, the division and every allocation succeed. *)
Definition goes_through (np : Np.platform) (f k : Z) : bool :=
  (0 <? f)%Z && (0 <? k)%Z && negb (Py.half_raises f) && Np.linspace_returns np k &&
  Np.zeros_returns np (steps_of live_duration) k &&
  Np.zeros_returns np (steps_of save_duration) k &&
  Np.zeros_returns np (steps_of avg_duration) k.

(** *** The lock

    The producer thread and the two readers (the render tick and the
    saver) take [self.lock] around every access to the buffers. The
    producer's critical section is split into its six assignments; a reader
    records what it reads while it holds the lock. *)

Inductive tid := Producer | Render | Saver.

Inductive ppc :=
| Idle
| AtWriteLive (x : row)
| AtAdvanceLive (x : row)
| AtWriteSave (x : row)
| AtAdvanceSave (x : row)
| AtWriteAvg (x : row)
| AtAdvanceAvg (x : row)
| AtRelease (x : row).

Record sys := {
  lock : option tid;
  pc : ppc;
  win : windows;
  produced : list row;
  seen : list (tid * windows)
}.

Definition boot (w : windows) : sys :=
  {| lock := None; pc := Idle; win := w; produced := []; seen := [] |}.

Inductive step : sys -> sys -> Prop :=
| p_acquire x w pr sn :
    step (Build_sys None Idle w pr sn)
         (Build_sys (Some Producer) (AtWriteLive x) w (pr ++ [x]) sn)
| p_write_live x w pr sn :
    step (Build_sys (Some Producer) (AtWriteLive x) w pr sn)
         (Build_sys (Some Producer) (AtAdvanceLive x) (write_live x w) pr sn)
| p_advance_live x w pr sn :
    step (Build_sys (Some Producer) (AtAdvanceLive x) w pr sn)
         (Build_sys (Some Producer) (AtWriteSave x) (advance_live w) pr sn)
| p_write_save x w pr sn :
    step (Build_sys (Some Producer) (AtWriteSave x) w pr sn)
         (Build_sys (Some Producer) (AtAdvanceSave x) (write_save x w) pr sn)
| p_advance_save x w pr sn :
    step (Build_sys (Some Producer) (AtAdvanceSave x) w pr sn)
         (Build_sys (Some Producer) (AtWriteAvg x) (advance_save w) pr sn)
| p_write_avg x w pr sn :
    step (Build_sys (Some Producer) (AtWriteAvg x) w pr sn)
         (Build_sys (Some Producer) (AtAdvanceAvg x) (write_avg x w) pr sn)
| p_advance_avg x w pr sn :
    step (Build_sys (Some Producer) (AtAdvanceAvg x) w pr sn)
         (Build_sys (Some Producer) (AtRelease x) (advance_avg w) pr sn)
| p_release x w pr sn :
    step (Build_sys (Some Producer) (AtRelease x) w pr sn)
         (Build_sys None Idle w pr sn)
| r_acquire t p w pr sn :
    t <> Producer ->
    step (Build_sys None p w pr sn) (Build_sys (Some t) p w pr sn)
| r_read t p w pr sn :
    t <> Producer ->
    step (Build_sys (Some t) p w pr sn) (Build_sys (Some t) p w pr (sn ++ [(t, w)]))
| r_release t p w pr sn :
    t <> Producer ->
    step (Build_sys (Some t) p w pr sn) (Build_sys None p w pr sn).

Inductive reachable (w0 : windows) : sys -> Prop :=
| reach_boot : reachable w0 (boot w0)
| reach_step s s' : reachable w0 s -> step s s' -> reachable w0 s'.

(** The sample the producer is in the middle of pushing, if any. *)
Definition pending (p : ppc) : list row :=
  match p with
  | Idle => []
  | AtWriteLive x | AtAdvanceLive x | AtWriteSave x | AtAdvanceSave x
  | AtWriteAvg x | AtAdvanceAvg x | AtRelease x => [x]
  end.

(** The buffers when the producer stands at [p], given the buffers [w] it
    found when it took the lock. *)
Definition partial (p : ppc) (w : windows) : windows :=
  match p with
  | Idle => w
  | AtWriteLive x => w
  | AtAdvanceLive x => write_live x w
  | AtWriteSave x => advance_live (write_live x w)
  | AtAdvanceSave x => write_save x (advance_live (write_live x w))
  | AtWriteAvg x => advance_save (write_save x (advance_live (write_live x w)))
  | AtAdvanceAvg x =>
      write_avg x (advance_save (write_save x (advance_live (write_live x w))))
  | AtRelease x => push w x
  end.

(** Invariant of the system started on the buffers [w0]: the buffers are
    those of the complete pushes so far, plus the part of the pending push
    already done; the producer is inside its critical section exactly when
    it holds the lock; every recorded read is a state of complete pushes. *)
Definition inv (w0 : windows) (s : sys) : Prop :=
  (exists ps, produced s = ps ++ pending (pc s) /\ win s = partial (pc s) (pushes w0 ps)) /\
  (pc s = Idle <-> lock s <> Some Producer) /\
  (forall t w, (t, w) ∈ seen s ->
     exists ps, ps `prefix_of` produced s /\ w = pushes w0 ps).

End Inno2.

(** ** The socket program, [src/plot_tcp.py] *)

Module Tcp.

(** A float32 as its bit pattern. *)
Definition float32 := N.
Definition sample := list float32.

(** Four bytes, least significant first. *)
Definition le32 (b0 b1 b2 b3 : byte) : float32 :=
  (Byte.to_N b0 + 256 * (Byte.to_N b1 + 256 * (Byte.to_N b2 + 256 * Byte.to_N b3)))%N.

(** [np.frombuffer(b, dtype=np.float32)] on a little-endian host; the
    program only calls it on [4 * n] bytes. *)
Fixpoint frombuffer (b : list byte) : sample :=
  match b with
  | b0 :: b1 :: b2 :: b3 :: rest => le32 b0 b1 b2 b3 :: frombuffer rest
  | _ => []
  end.

(** [self.data] and [self.timestamps]. *)
Record window := {
  data : list sample;
  timestamps : list Q
}.

Definition empty : window := {| data := []; timestamps := [] |}.

(** [while self.timestamps and self.timestamps[0] < cutoff:] pop the front
    of both lists. *)
Fixpoint evict (cutoff : Q) (ts : list Q) (d : list sample) : window :=
  match ts with
  | t :: ts' =>
      if Np.Qltb t cutoff then evict cutoff ts' (tail d)
      else {| data := d; timestamps := ts |}
  | [] => {| data := d; timestamps := [] |}
  end.

(** The body of [with self.lock] in [receive_data_tcp]. [t_append] and
    [t_cutoff] are the two readings of [time.time()]. *)
Definition push (t_append t_cutoff : Q) (x : sample) (w : window) : window :=
  let data1 := data w ++ [x] in
  let timestamps1 := timestamps w ++ [t_append] in
  let cutoff := (t_cutoff - 10)%Q in
  evict cutoff timestamps1 data1.

(** A run of pushes, each with its sample and its two clock readings. *)
Definition run (w : window) (ps : list (Q * Q * sample)) : window :=
  foldl (fun w '(t_append, t_cutoff, x) => push t_append t_cutoff x w) w ps.

(** The receiver thread: the accumulation buffer, the window and the number
    of clock readings made so far. *)
Record rx := {
  buffer : list byte;
  win : window;
  ticks : nat
}.

Definition rx_init : rx := {| buffer := []; win := empty; ticks := 0 |}.

Section Receiver.

(** [clock k] is what the [k]-th call of [time.time()] returns. *)
Variable clock : nat -> Q.

(** The inner [while len(buffer) >= self.n * 4] loop. It returns the samples
    appended to [self.data], in order, and the state it leaves. [None]: the
    loop is still running when the fuel is used up. *)
Fixpoint drain (fuel : nat) (n : nat) (st : rx) : option (list sample * rx) :=
  if n * 4 <=? length (buffer st) then
    match fuel with
    | 0 => None
    | S fuel' =>
        let x := frombuffer (take (n * 4) (buffer st)) in
        let st' :=
          {| buffer := drop (n * 4) (buffer st);
             win := push (clock (ticks st)) (clock (S (ticks st))) x (win st);
             ticks := S (S (ticks st)) |} in
        match drain fuel' n st' with
        | Some (out, st'') => Some (x :: out, st'')
        | None => None
        end
    end
  else Some ([], st).

(** The outer loop of [receive_data_tcp], one iteration for each result of
    [conn.recv(4096)] obtained while running and not paused. *)
Fixpoint receive_data_tcp (fuel : nat) (n : nat) (chunks : list (list byte)) (st : rx)
  : option (list sample * rx) :=
  match chunks with
  | [] => Some ([], st)
  | chunk :: chunks' =>
      let st1 := {| buffer := buffer st ++ chunk; win := win st; ticks := ticks st |} in
      match drain fuel n st1 with
      | Some (out, st2) =>
          match receive_data_tcp fuel n chunks' st2 with
          | Some (out', st3) => Some (out ++ out', st3)
          | None => None
          end
      | None => None
      end
  end.

(** The pushes the receiver makes for the samples [out], the first clock
    reading being number [t]: each push reads the clock twice. *)
Fixpoint stamped (t : nat) (out : list sample) : list (Q * Q * sample) :=
  match out with
  | [] => []
  | x :: out' => (clock t, clock (S t), x) :: stamped (S (S t)) out'
  end.

End Receiver.

(** The complete records of a byte stream, decoded: record [i] is the
    [n * 4] bytes from offset [n * 4 * i], for [i] below the number of whole
    records. This states what the receiver is expected to deliver; the
    receiver itself is [receive_data_tcp]. *)
Definition records (n : nat) (stream : list byte) : list sample :=
  map (fun i => frombuffer (take (n * 4) (drop (n * 4 * i) stream)))
      (seq 0 (length stream / (n * 4))).

(** The bytes after the last complete record. *)
Definition remainder (n : nat) (stream : list byte) : list byte :=
  drop (n * 4 * (length stream / (n * 4))) stream.

(** *** Grid alignment in [update_plot] *)

(** The binary search of [np.searchsorted(a, v)] (side left) between [lo]
    and [hi]. *)
Fixpoint bsearch (fuel : nat) (a : list Q) (v : Q) (lo hi : nat) : nat :=
  match fuel with
  | 0 => lo
  | S fuel' =>
      if lo <? hi then
        let mid := lo + (hi - lo) / 2 in
        if Np.Qltb (nth mid a 0%Q) v then bsearch fuel' a v (mid + 1) hi
        else bsearch fuel' a v lo mid
      else lo
  end.

Definition searchsorted (a : list Q) (v : Q) : nat :=
  bsearch (length a) a v 0 (length a).

Definition duration : Q := 10.
(** [int(duration / 0.05)] *)
Definition num_steps : nat := Z.to_nat (Np.int_of_float (duration / (5 # 100))).
(** [np.linspace(-10, 0, num_steps)] *)
Definition full_times : list Q := Np.linspace (- (10)) 0 num_steps.

(** A row of [aligned_data] is an [option sample]: [None] is a row still
    filled with [np.nan].

    The body of the [for t, d in zip(rel_times, data_array)] loop. *)
Definition place (aligned : list (option sample)) (td : Q * sample) : list (option sample) :=
  let idx := searchsorted full_times (fst td) in
  if (0 <=? idx) && (idx <? num_steps) then <[idx := Some (snd td)]> aligned
  else aligned.

Definition align (rel_times : list Q) (data_array : list sample) : list (option sample) :=
  foldl place (replicate num_steps None) (zip rel_times data_array).

(** [update_plot] up to the drawing calls: [None] is the early return on an
    empty window. *)
Definition update_plot (current_time : Q) (w : window) : option (list (option sample)) :=
  if length (data w) =? 0 then None
  else
    let rel_times := map (fun t => (t - current_time)%Q) (timestamps w) in
    Some (align rel_times (data w)).

(** *** Persistence *)

Inductive file :=
| Fits (name : string) (time_axis : list Q) (FS NFFT : Z) (freq : list Q) (data : list sample)
| Png (name : string) (image : list sample).

(** [save_outputs]; [base_name] is the name built from [datetime.now()]. *)
Definition save_outputs (w : window) (fs n : Z) (freqs : list Q) (base_name : string)
  : list file :=
  match data w with
  | [] => []
  | _ :: _ =>
      let t_last := List.last (timestamps w) 0%Q in
      let rel_times := map (fun t => (t - t_last)%Q) (timestamps w) in
      [Fits (base_name ++ ".fits") rel_times fs n freqs (data w);
       Png (base_name ++ ".png") (data w)]
  end.

(** *** Session start *)

Inductive thread := ReceiveDataTcp | AutoSave.

(** The attributes of [SpectrogramApp] that the session logic touches.
    [None] is an attribute that has not been assigned yet. [threads] lists
    the threads started so far, [dialogs] the error boxes shown and
    [uncaught] the exceptions that left a callback. *)
Record app := {
  fs : option Z;
  n : option Z;
  port : option Z;
  freqs : option (list Q);
  running : bool;
  paused : bool;
  store : window;
  threads : list thread;
  dialogs : list string;
  uncaught : list Py.exn
}.

(** The object left by [__init__]. *)
Definition init : app :=
  {| fs := None; n := None; port := None; freqs := None; running := false;
     paused := false; store := empty; threads := []; dialogs := []; uncaught := [] |}.

Definition set_fs (a : app) (v : Z) : app :=
  {| fs := Some v; n := n a; port := port a; freqs := freqs a; running := running a;
     paused := paused a; store := store a; threads := threads a; dialogs := dialogs a;
     uncaught := uncaught a |}.

Definition set_n (a : app) (v : Z) : app :=
  {| fs := fs a; n := Some v; port := port a; freqs := freqs a; running := running a;
     paused := paused a; store := store a; threads := threads a; dialogs := dialogs a;
     uncaught := uncaught a |}.

Definition set_port (a : app) (v : Z) : app :=
  {| fs := fs a; n := n a; port := Some v; freqs := freqs a; running := running a;
     paused := paused a; store := store a; threads := threads a; dialogs := dialogs a;
     uncaught := uncaught a |}.

(** [messagebox.showerror(...)] followed by [return]. *)
Definition showerror (a : app) : app :=
  {| fs := fs a; n := n a; port := port a; freqs := freqs a; running := running a;
     paused := paused a; store := store a; threads := threads a;
     dialogs := dialogs a ++ ["Please enter valid integers for Fs, N, and Port."%string];
     uncaught := uncaught a |}.

(** An exception outside the [try] block ends the call where it is. *)
Definition raise (a : app) (e : Py.exn) : app :=
  {| fs := fs a; n := n a; port := port a; freqs := freqs a; running := running a;
     paused := paused a; store := store a; threads := threads a; dialogs := dialogs a;
     uncaught := uncaught a ++ [e] |}.

(** [start_observation]. [fs_int], [n_int] and [port_int] are the results
    of [int] on the texts of the three entries, [None] when [int] raises
    [ValueError]; [np] tells which arrays numpy can create. The [try] block
    assigns [self.fs], [self.n] and [self.port] one after the other, then
    checks [assert self.fs > 0 and self.n > 0]; any exception there shows
    the error box and returns. Line 71 is outside the [try]: [self.fs / 2]
    can raise and [np.linspace] can. The button states and the first call of
    [update_plot] are left out. *)
Definition start_observation (np : Np.platform) (fs_int n_int port_int : option Z)
    (a : app) : app :=
  match fs_int with
  | None => showerror a
  | Some f =>
      let a1 := set_fs a f in
      match n_int with
      | None => showerror a1
      | Some k =>
          let a2 := set_n a1 k in
          match port_int with
          | None => showerror a2
          | Some p =>
              let a3 := set_port a2 p in
              if (0 <? f)%Z && (0 <? k)%Z then
                if Py.half_raises f then raise a3 Py.OverflowError
                else if negb (Np.linspace_returns np k) then raise a3 Py.ArrayTooLarge
                else
                  {| fs := Some f; n := Some k; port := Some p;
                     freqs := Some (Np.linspace 0 (inject_Z f / 2) (Z.to_nat k));
                     running := true;
                     paused := false;
                     store := empty;
                     threads := threads a3 ++ [ReceiveDataTcp; AutoSave];
                     dialogs := dialogs a3;
                     uncaught := uncaught a3 |}
              else showerror a3
          end
      end
  end.

(** The calls of [start_observation] that reach its last line: both
    numbers positive, the division and the allocation succeed. *)
Definition goes_through (np : Np.platform) (f k : Z) : bool :=
  (0 <? f)%Z && (0 <? k)%Z && negb (Py.half_raises f) && Np.linspace_returns np k.

(** *** The receiver thread as a whole *)

(** What one turn of the [while self.running] loop meets. *)
Inductive event :=
| Stopped
| Paused
| Recv (chunk : list byte)
| RecvError.

Section Thread.

Variable clock : nat -> Q.

(** [receive_data_tcp] from the first turn of its loop on. [Stopped]:
    [self.running] is false and the loop ends; [Paused]: [self.paused] is
    true, sleep and [continue]; [Recv chunk]: [conn.recv(4096)] returned
    [chunk]; [RecvError]: it raised, the handler prints and [break]s. The
    result is the samples appended, the state, and whether the loop was left,
    after which [conn.close()] and [sock.close()] run. *)
Fixpoint receiver_thread (fuel n : nat) (events : list event) (st : rx)
  : option (list sample * rx * bool) :=
  match events with
  | [] => Some ([], st, false)
  | Stopped :: _ => Some ([], st, true)
  | RecvError :: _ => Some ([], st, true)
  | Paused :: events' => receiver_thread fuel n events' st
  | Recv chunk :: events' =>
      let st1 := {| buffer := buffer st ++ chunk; win := win st; ticks := ticks st |} in
      match drain clock fuel n st1 with
      | Some (out, st2) =>
          match receiver_thread fuel n events' st2 with
          | Some (out', st3, closed) => Some (out ++ out', st3, closed)
          | None => None
          end
      | None => None
      end
  end.

End Thread.

(** The chunks read before the first [Stopped] or [RecvError]. *)
Fixpoint received (events : list event) : list (list byte) :=
  match events with
  | [] => []
  | Stopped :: _ => []
  | RecvError :: _ => []
  | Paused :: events' => received events'
  | Recv chunk :: events' => chunk :: received events'
  end.

End Tcp.

(** * Properties *)

(** ** Values of the constants and of the helpers on small inputs *)

Example steps_values :
  Inno2.steps_of Inno2.live_duration = 500 /\
  Inno2.steps_of Inno2.save_duration = 3000 /\
  Inno2.steps_of Inno2.avg_duration = 1500 /\
  Tcp.num_steps = 200.
Proof. vm_compute. auto. Qed.

Example half_raises_examples :
  Py.half_raises 2000 = false /\ Py.half_raises (2 ^ 1025 - 2 ^ 971 - 1) = false /\
  Py.half_raises (2 ^ 1025 - 2 ^ 971) = true /\ Py.half_raises (10 ^ 400) = true.
Proof. vm_compute. repeat split. Qed.

Example frombuffer_example :
  Tcp.frombuffer [x00; x00; x80; x3f; x00; x00; x00; xc0] = [1065353216%N; 3221225472%N].
Proof. reflexivity. Qed.

Example argmax_examples :
  Np.argmax [1; 7; 3; 7; 2]%Q = 1 /\ Np.argmax [4 # 2; 2; 1]%Q = 0 /\ Np.argmax [0]%Q = 0.
Proof. vm_compute. auto. Qed.

Example searchsorted_examples :
  Tcp.searchsorted Tcp.full_times (- (10)) = 0 /\
  Tcp.searchsorted Tcp.full_times (- (11)) = 0 /\
  Tcp.searchsorted Tcp.full_times 0 = 199 /\
  Tcp.searchsorted Tcp.full_times (1 # 1000) = 200 /\
  Tcp.searchsorted Tcp.full_times (- (5)) = 100.
Proof. vm_compute. auto. Qed.

(** ** Ring buffers *)

Section Ring.

Import Inno2.

Lemma chronological_length buf idx :
  idx <= length buf -> length (chronological buf idx) = length buf.
Proof.
  intros Hle. unfold chronological. destruct (idx =? 0); [done|].
  rewrite length_app, length_drop, length_take. lia.
Qed.

(** Writing at the cursor and advancing it drops the oldest row of the
    read-out and appends the new one. *)
Lemma chronological_write buf idx steps x :
  length buf = steps -> idx < steps ->
  chronological (<[idx := x]> buf) ((idx + 1) mod steps)
  = drop 1 (chronological buf idx) ++ [x].
Proof.
  intros Hlen Hidx.
  assert (Hsplit : buf = take idx buf ++ drop idx buf) by (by rewrite take_drop).
  destruct (drop idx buf) as [|y tl] eqn:Hd.
  { apply (f_equal length) in Hd. rewrite length_drop in Hd. simpl in Hd. lia. }
  assert (Hti : length (take idx buf) = idx) by (rewrite length_take; lia).
  assert (Hins : <[idx := x]> buf = take idx buf ++ x :: tl).
  { rewrite Hsplit at 1. rewrite <- Hti at 1.
    by rewrite insert_app_r_alt, Nat.sub_diag by lia. }
  assert (Htl : length tl = steps - idx - 1).
  { apply (f_equal length) in Hsplit. rewrite length_app, Hti in Hsplit.
    simpl in Hsplit. lia. }
  assert (Hold : chronological buf idx = y :: tl ++ take idx buf).
  { unfold chronological. destruct (Nat.eqb_spec idx 0) as [->|Hne].
    - rewrite take_0 in *. simpl in Hsplit. rewrite Hsplit. by rewrite app_nil_r.
    - by rewrite Hd. }
  rewrite Hold. simpl. rewrite drop_0.
  destruct (decide (idx + 1 = steps)) as [Heq|Hne].
  - rewrite Heq, Nat.Div0.mod_same. unfold chronological. simpl.
    assert (tl = []) as -> by (destruct tl; [done | simpl in Htl; lia]).
    by rewrite Hins.
  - rewrite Nat.mod_small by lia. unfold chronological.
    replace (idx + 1 =? 0) with false by (symmetry; apply Nat.eqb_neq; lia).
    rewrite Hins.
    rewrite drop_app_ge, take_app_ge by lia.
    rewrite Hti. replace (idx + 1 - idx) with 1 by lia. simpl.
    rewrite drop_0, take_0. by rewrite <- app_assoc.
Qed.

Lemma push_wf w x : wf w -> wf (push w x).
Proof.
  unfold wf. intros [[? ?] [[? ?] [? ?]]]. simpl.
  rewrite !length_insert.
  repeat split; try done; apply Nat.mod_upper_bound; lia.
Qed.

Lemma pushes_wf w ps : wf w -> wf (pushes w ps).
Proof.
  revert w. induction ps as [|x ps IH]; intros w Hw; [done|].
  apply IH. by apply push_wf.
Qed.

Lemma push_read_out w x :
  wf w ->
  data_to_plot (push w x) = drop 1 (data_to_plot w) ++ [x] /\
  data_60s (push w x) = drop 1 (data_60s w) ++ [x] /\
  avg_data (push w x) = drop 1 (avg_data w) ++ [x].
Proof.
  intros [[? ?] [[? ?] [? ?]]].
  unfold data_to_plot, data_60s, avg_data. simpl.
  repeat split; by apply chronological_write.
Qed.

Lemma drop_one_app {A} (l k : list A) :
  0 < length l -> drop 1 (l ++ k) = drop 1 l ++ k.
Proof. destruct l; simpl; [lia | by rewrite !drop_0]. Qed.

Lemma wf_read_out_length w :
  wf w ->
  length (data_to_plot w) = live_steps w /\
  length (data_60s w) = save_steps w /\
  length (avg_data w) = avg_steps w.
Proof.
  intros [[? ?] [[? ?] [? ?]]]. unfold data_to_plot, data_60s, avg_data.
  rewrite !chronological_length by lia. done.
Qed.

(** After any run of pushes each read-out is the old read-out followed by
    the pushed rows, cut to the last [steps] rows. *)
Lemma pushes_read_out w ps :
  wf w ->
  data_to_plot (pushes w ps) = drop (length ps) (data_to_plot w ++ ps) /\
  data_60s (pushes w ps) = drop (length ps) (data_60s w ++ ps) /\
  avg_data (pushes w ps) = drop (length ps) (avg_data w ++ ps).
Proof.
  revert w. induction ps as [|x ps IH]; intros w Hw.
  { simpl. by rewrite !app_nil_r. }
  destruct (IH (push w x) (push_wf _ x Hw)) as (IHl & IHs & IHa).
  destruct (push_read_out w x Hw) as (El & Es & Ea).
  destruct (wf_read_out_length w Hw) as (Ll & Ls & La).
  destruct Hw as [[? ?] [[? ?] [? ?]]].
  change (pushes w (x :: ps)) with (pushes (push w x) ps).
  rewrite IHl, IHs, IHa, El, Es, Ea. simpl length.
  rewrite <- !app_assoc. simpl.
  rewrite <- !(drop_one_app _ (x :: ps)) by lia.
  rewrite !drop_drop. replace (1 + length ps) with (S (length ps)) by lia.
  done.
Qed.

Lemma pushes_index w ps :
  wf w ->
  live_index (pushes w ps) = (live_index w + length ps) mod live_steps w /\
  save_index (pushes w ps) = (save_index w + length ps) mod save_steps w /\
  avg_index (pushes w ps) = (avg_index w + length ps) mod avg_steps w /\
  live_steps (pushes w ps) = live_steps w /\
  save_steps (pushes w ps) = save_steps w /\
  avg_steps (pushes w ps) = avg_steps w /\
  cols (pushes w ps) = cols w.
Proof.
  revert w. induction ps as [|x ps IH]; intros w Hw.
  { destruct Hw as [[? ?] [[? ?] [? ?]]]. simpl.
    rewrite !Nat.add_0_r, !Nat.mod_small by lia. done. }
  destruct (IH (push w x) (push_wf _ x Hw)) as (I1 & I2 & I3 & I4 & I5 & I6 & I7).
  change (pushes w (x :: ps)) with (pushes (push w x) ps).
  rewrite I1, I2, I3, I4, I5, I6, I7. simpl.
  rewrite !Nat.Div0.add_mod_idemp_l.
  replace (live_index w + 1 + length ps) with (live_index w + S (length ps)) by lia.
  replace (save_index w + 1 + length ps) with (save_index w + S (length ps)) by lia.
  replace (avg_index w + 1 + length ps) with (avg_index w + S (length ps)) by lia.
  done.
Qed.

Lemma alloc_wf ls ss vs n :
  0 < ls -> 0 < ss -> 0 < vs -> wf (alloc ls ss vs n).
Proof.
  intros. unfold wf, alloc, zeros. simpl. rewrite !length_replicate. lia.
Qed.

Lemma fresh_wf n : wf (fresh n).
Proof. apply alloc_wf; vm_compute; lia. Qed.

End Ring.

Section RingReadOut.

Import Inno2.

Lemma chronological_unfold buf idx :
  chronological buf idx = drop idx buf ++ take idx buf.
Proof.
  unfold chronological. destruct (Nat.eqb_spec idx 0) as [->|]; [|done].
  by rewrite drop_0, take_0, app_nil_r.
Qed.

(** Read-out of one ring that started as [cap] zero rows, after the rows
    [ps] were written to it one by one. *)
Lemma read_out_cases (cap n : nat) (ps buf : list row) (idx : nat) :
  length buf = cap -> idx = length ps mod cap -> 0 < cap ->
  chronological buf idx = drop (length ps) (zeros cap n ++ ps) ->
  (cap <= length ps -> chronological buf idx = drop (length ps - cap) ps) /\
  (length ps < cap ->
     chronological buf idx = zeros (cap - length ps) n ++ ps /\
     take idx buf = ps).
Proof.
  intros Hlen Hidx Hcap Hchr.
  assert (Hz : length (zeros cap n) = cap) by (unfold zeros; by rewrite length_replicate).
  split; intros Hk.
  - rewrite Hchr, drop_app_ge by lia. by rewrite Hz.
  - assert (E : chronological buf idx = zeros (cap - length ps) n ++ ps).
    { rewrite Hchr, drop_app_le by lia. unfold zeros. by rewrite drop_replicate. }
    split; [done|].
    rewrite chronological_unfold in E.
    rewrite Nat.mod_small in Hidx by lia.
    apply app_inj_1 in E as [_ E]; [done|].
    unfold zeros. rewrite length_drop, length_replicate. lia.
Qed.

End RingReadOut.

(** C1 (as amended). In the ring program the read-out handed to the plot
    and to the saver is always [buffer[idx:] ++ buffer[:idx]], with all
    [steps] rows. Started from zero-filled buffers and after the rows [ps]
    were pushed, the cursor is [length ps mod steps]; once [length ps >=
    steps] the read-out is exactly the last [steps] pushed rows, oldest
    first; before that it is [steps - length ps] zero rows followed by all
    pushed rows in push order, and [buffer[:idx]] is the list of pushed
    rows. *)
Theorem ring_read_out_chronological (ls ss vs n : nat) (ps : list Inno2.row) :
  0 < ls -> 0 < ss -> 0 < vs ->
  let w := Inno2.pushes (Inno2.alloc ls ss vs n) ps in
  let k := length ps in
  (Inno2.live_index w = k mod ls /\
   Inno2.data_to_plot w
     = drop (Inno2.live_index w) (Inno2.live_buffer w)
       ++ take (Inno2.live_index w) (Inno2.live_buffer w) /\
   (ls <= k ->
      Inno2.data_to_plot w = drop (k - ls) ps /\
      forall i, i < ls -> Inno2.data_to_plot w !! i = ps !! (k - ls + i)) /\
   (k < ls ->
      Inno2.data_to_plot w = Inno2.zeros (ls - k) n ++ ps /\
      take (Inno2.live_index w) (Inno2.live_buffer w) = ps /\
      forall i, i < k -> Inno2.data_to_plot w !! (ls - k + i) = ps !! i)) /\
  (Inno2.save_index w = k mod ss /\
   Inno2.data_60s w
     = drop (Inno2.save_index w) (Inno2.save_buffer w)
       ++ take (Inno2.save_index w) (Inno2.save_buffer w) /\
   (ss <= k ->
      Inno2.data_60s w = drop (k - ss) ps /\
      forall i, i < ss -> Inno2.data_60s w !! i = ps !! (k - ss + i)) /\
   (k < ss ->
      Inno2.data_60s w = Inno2.zeros (ss - k) n ++ ps /\
      take (Inno2.save_index w) (Inno2.save_buffer w) = ps /\
      forall i, i < k -> Inno2.data_60s w !! (ss - k + i) = ps !! i)).
Proof.
  intros Hls Hss Hvs w k.
  pose proof (alloc_wf ls ss vs n Hls Hss Hvs) as Hw0.
  pose proof (pushes_wf _ ps Hw0) as Hw.
  destruct (pushes_index _ ps Hw0) as (Il & Is & _ & Sl & Ss & _ & _).
  destruct (pushes_read_out _ ps Hw0) as (Rl & Rs & _).
  fold w in Hw, Il, Is, Sl, Ss, Rl, Rs. simpl in Il, Is, Sl, Ss.
  destruct Hw as [[Ll _] [[Lsv _] _]]. rewrite Sl in Ll. rewrite Ss in Lsv.
  split.
  - destruct (read_out_cases ls n ps (Inno2.live_buffer w) (Inno2.live_index w))
      as [Hge Hlt]; try done.
    split; [done|]. split; [apply chronological_unfold|]. split.
    + intros Hk. split; [by apply Hge|]. intros i Hi.
      fold (Inno2.data_to_plot w) in Hge. rewrite (Hge Hk). apply lookup_drop.
    + intros Hk. destruct (Hlt Hk) as [E1 E2]. split; [done|]. split; [done|].
      intros i Hi. fold (Inno2.data_to_plot w) in E1. rewrite E1.
      rewrite lookup_app_r; unfold Inno2.zeros; rewrite length_replicate; [|lia].
      f_equal. lia.
  - destruct (read_out_cases ss n ps (Inno2.save_buffer w) (Inno2.save_index w))
      as [Hge Hlt]; try done.
    split; [done|]. split; [apply chronological_unfold|]. split.
    + intros Hk. split; [by apply Hge|]. intros i Hi.
      fold (Inno2.data_60s w) in Hge. rewrite (Hge Hk). apply lookup_drop.
    + intros Hk. destruct (Hlt Hk) as [E1 E2]. split; [done|]. split; [done|].
      intros i Hi. fold (Inno2.data_60s w) in E1. rewrite E1.
      rewrite lookup_app_r; unfold Inno2.zeros; rewrite length_replicate; [|lia].
      f_equal. lia.
Qed.

Lemma ring_read_out_chronological_witness :
  let ps : list Inno2.row := [[1%Q]; [2%Q]; [3%Q]; [4%Q]] in
  let w := Inno2.pushes (Inno2.alloc 3 5 2 1) ps in
  Inno2.data_to_plot w = [[2%Q]; [3%Q]; [4%Q]] /\
  Inno2.data_60s w = [[0%Q]; [1%Q]; [2%Q]; [3%Q]; [4%Q]].
Proof.
  intros ps w.
  destruct (ring_read_out_chronological 3 5 2 1 ps) as [(_ & _ & Hl & _) (_ & _ & _ & Hs)];
    [lia | lia | lia |].
  split.
  - apply Hl. simpl. lia.
  - apply Hs. simpl. lia.
Defined.

(** C1 as stated fails before the first wrap: with one row pushed into the
    500-row live buffer, what [update_plot] reads out and draws is 499 zero
    rows and then the pushed row, not [buffer[:idx]]. *)
Lemma ring_read_out_before_wrap_counterexample :
  let ps : list Inno2.row := [[5%Q]] in
  let w := Inno2.pushes (Inno2.fresh 1) ps in
  length ps < Inno2.live_steps w /\
  Inno2.live_index w = 1 /\
  take (Inno2.live_index w) (Inno2.live_buffer w) = [[5%Q]] /\
  Inno2.data_to_plot w = Inno2.zeros 499 1 ++ [[5%Q]] /\
  fst <$> Inno2.update_plot w w [0%Q] = Some (Inno2.zeros 499 1 ++ [[5%Q]]) /\
  Inno2.data_to_plot w <> take (Inno2.live_index w) (Inno2.live_buffer w).
Proof.
  intros ps w.
  assert (E : Inno2.data_to_plot w = Inno2.zeros 499 1 ++ [[5%Q]]) by (vm_compute; reflexivity).
  split; [vm_compute; lia|].
  split; [vm_compute; reflexivity|].
  split; [vm_compute; reflexivity|].
  split; [exact E|].
  split; [vm_compute; reflexivity|].
  rewrite E. vm_compute. discriminate.
Qed.

(** ** First maximum *)

Section Argmax.

Import Np.

Lemma Qltb_lt x y : Qltb x y = true <-> (x < y)%Q.
Proof.
  unfold Qltb. rewrite negb_true_iff, <- not_true_iff_false, Qle_bool_iff.
  split; [apply Qnot_le_lt | apply Qlt_not_le].
Qed.

Lemma Qltb_ge x y : Qltb x y = false <-> (y <= x)%Q.
Proof.
  unfold Qltb. rewrite negb_false_iff. apply Qle_bool_iff.
Qed.

(** The scan keeps the first position of the largest entry seen so far:
    [pre] is the part already scanned, [best] its maximum, first reached at
    [best_i]. *)
Lemma argmax_from_first_max (v pre : list Q) (best_i : nat) (best : Q) :
  pre !! best_i = Some best ->
  (forall j y, pre !! j = Some y -> (y <= best)%Q) ->
  (forall j y, j < best_i -> pre !! j = Some y -> (y < best)%Q) ->
  exists m,
    (pre ++ v) !! argmax_from best_i best (length pre) v = Some m /\
    (forall j y, (pre ++ v) !! j = Some y -> (y <= m)%Q) /\
    (forall j y, j < argmax_from best_i best (length pre) v ->
                 (pre ++ v) !! j = Some y -> (y < m)%Q).
Proof.
  revert pre best_i best. induction v as [|x v IH]; intros pre best_i best Hb Hmax Hfirst.
  - simpl. rewrite app_nil_r. eauto.
  - simpl. replace (pre ++ x :: v) with ((pre ++ [x]) ++ v) by (by rewrite <- app_assoc).
    replace (S (length pre)) with (length (pre ++ [x])) by (rewrite length_app; simpl; lia).
    destruct (Qltb best x) eqn:Hcmp.
    + apply Qltb_lt in Hcmp. apply IH.
      * by rewrite lookup_app_r, Nat.sub_diag by lia.
      * intros j y Hj. apply lookup_app_Some in Hj as [Hj | [Hge Hj]].
        -- apply Qlt_le_weak. eapply Qle_lt_trans; [by eapply Hmax | done].
        -- apply list_lookup_singleton_Some in Hj as [_ <-]. apply Qle_refl.
      * intros j y Hlt Hj. rewrite lookup_app_l in Hj by done.
        eapply Qle_lt_trans; [by eapply Hmax | done].
    + apply Qltb_ge in Hcmp. apply IH.
      * rewrite lookup_app_l; [done|]. by eapply lookup_lt_Some.
      * intros j y Hj. apply lookup_app_Some in Hj as [Hj | [Hge Hj]].
        -- by eapply Hmax.
        -- by apply list_lookup_singleton_Some in Hj as [_ <-].
      * intros j y Hlt Hj. apply lookup_lt_Some in Hb.
        rewrite lookup_app_l in Hj by lia. by eapply Hfirst.
Qed.

(** [np.argmax] returns the smallest index that attains the maximum. *)
Lemma argmax_first_max (v : list Q) :
  v <> [] ->
  exists m,
    v !! argmax v = Some m /\
    (forall j y, v !! j = Some y -> (y <= m)%Q) /\
    (forall j y, j < argmax v -> v !! j = Some y -> (y < m)%Q).
Proof.
  destruct v as [|x v]; [done|]. intros _.
  apply (argmax_from_first_max v [x] 0 x).
  - done.
  - intros [|j] y Hj; simpl in Hj; [|done]. injection Hj as <-. apply Qle_refl.
  - intros j y Hj. lia.
Qed.

Lemma sum_axis0_length cols (a : list (list Q)) :
  Forall (fun r => length r = cols) a -> length (sum_axis0 cols a) = cols.
Proof.
  unfold sum_axis0. induction 1 as [|r a Hr _ IH]; simpl.
  - by rewrite length_replicate.
  - rewrite length_zip_with. lia.
Qed.

(** Entry [j] of the column sums is the sum of the entries [j] of the rows. *)
Lemma sum_axis0_lookup cols (a : list (list Q)) j :
  Forall (fun r => length r = cols) a -> j < cols ->
  sum_axis0 cols a !! j = Some (foldr (fun r acc => (nth j r 0 + acc)%Q) 0%Q a).
Proof.
  intros Ha Hj. unfold sum_axis0. induction Ha as [|r a Hr Ha IH]; simpl.
  - by rewrite lookup_replicate_2.
  - rewrite lookup_zip_with, IH.
    destruct (lookup_lt_is_Some_2 r j) as [y Hy]; [lia|].
    rewrite Hy. simpl. by rewrite (nth_lookup_Some _ _ _ _ Hy).
Qed.

Lemma mean_axis0_length cols (a : list (list Q)) :
  Forall (fun r => length r = cols) a -> length (mean_axis0 cols a) = cols.
Proof. intros. unfold mean_axis0. rewrite length_map. by apply sum_axis0_length. Qed.

(** Entry [j] of the exact mean. *)
Lemma mean_axis0_lookup cols (a : list (list Q)) j :
  Forall (fun r => length r = cols) a -> j < cols ->
  mean_axis0 cols a !! j
  = Some (foldr (fun r acc => (nth j r 0 + acc)%Q) 0%Q a / inject_Z (Z.of_nat (length a)))%Q.
Proof.
  intros Ha Hj. unfold mean_axis0.
  by rewrite list_lookup_fmap, sum_axis0_lookup.
Qed.

Lemma foldl_add_length cols (r : list Q) (a : list (list Q)) :
  length r = cols -> Forall (fun r => length r = cols) a ->
  length (foldl (zip_with add) r a) = cols.
Proof.
  intros Hr Ha. revert r Hr.
  induction Ha as [|x a Hx _ IH]; intros r Hr; simpl; [done|].
  apply IH. rewrite length_zip_with. lia.
Qed.

(** Entry [j] of the running sum: the entries [j] of the rows added one
    after the other onto that of the first row. *)
Lemma foldl_add_lookup cols (r : list Q) (a : list (list Q)) j :
  length r = cols -> Forall (fun r => length r = cols) a -> j < cols ->
  foldl (zip_with add) r a !! j
  = Some (foldl add (nth j r 0%Q) (map (fun x => nth j x 0%Q) a)).
Proof.
  intros Hr Ha Hj. revert r Hr.
  induction Ha as [|x a Hx _ IH]; intros r Hr; simpl.
  - destruct (lookup_lt_is_Some_2 r j) as [y Hy]; [lia|].
    by rewrite (nth_lookup_Some _ _ _ _ Hy).
  - rewrite IH by (rewrite length_zip_with; lia). do 2 f_equal.
    destruct (lookup_lt_is_Some_2 r j) as [y Hy]; [lia|].
    destruct (lookup_lt_is_Some_2 x j) as [z Hz]; [lia|].
    rewrite (nth_lookup_Some _ _ _ _ Hy), (nth_lookup_Some _ _ _ _ Hz).
    apply nth_lookup_Some. by rewrite lookup_zip_with, Hy, Hz.
Qed.

Lemma mean_axis0_double_length cols (a : list (list Q)) :
  a <> [] -> Forall (fun r => length r = cols) a ->
  length (mean_axis0_double cols a) = cols.
Proof.
  destruct a as [|r a]; [done|]. intros _ Ha.
  apply Forall_cons in Ha as [Hr Ha]. unfold mean_axis0_double.
  rewrite length_map. by apply foldl_add_length.
Qed.

Lemma mean_axis0_double_lookup cols (r : list Q) (a : list (list Q)) j :
  length r = cols -> Forall (fun r => length r = cols) a -> j < cols ->
  mean_axis0_double cols (r :: a) !! j
  = Some (true_divide (foldl add (nth j r 0%Q) (map (fun x => nth j x 0%Q) a))
                      (inject_Z (Z.of_nat (length (r :: a))))).
Proof.
  intros Hr Ha Hj. unfold mean_axis0_double.
  by rewrite list_lookup_fmap, (foldl_add_lookup cols).
Qed.

End Argmax.

(** ** The aggregator of the ring program *)

Section Aggregator.

Import Inno2.

Lemma push_shape (P : row -> Prop) w x :
  P x ->
  Forall P (live_buffer w) /\ Forall P (save_buffer w) /\ Forall P (avg_buffer w) ->
  Forall P (live_buffer (push w x)) /\ Forall P (save_buffer (push w x)) /\
  Forall P (avg_buffer (push w x)).
Proof.
  intros Hx (Hl & Hs & Ha). simpl. repeat split; by apply Forall_insert.
Qed.

Lemma pushes_shape (P : row -> Prop) w ps :
  Forall P ps ->
  Forall P (live_buffer w) /\ Forall P (save_buffer w) /\ Forall P (avg_buffer w) ->
  Forall P (live_buffer (pushes w ps)) /\ Forall P (save_buffer (pushes w ps)) /\
  Forall P (avg_buffer (pushes w ps)).
Proof.
  intros Hps. revert w. induction Hps as [|x ps Hx _ IH]; intros w Hw; [done|].
  apply IH. by apply push_shape.
Qed.

Lemma alloc_shape ls ss vs n :
  let w := alloc ls ss vs n in
  Forall (fun r => length r = n) (live_buffer w) /\
  Forall (fun r => length r = n) (save_buffer w) /\
  Forall (fun r => length r = n) (avg_buffer w).
Proof.
  simpl. unfold zeros. repeat split; apply Forall_replicate; by rewrite length_replicate.
Qed.

Lemma chronological_Forall (P : row -> Prop) buf idx :
  Forall P buf -> Forall P (chronological buf idx).
Proof.
  intros H. rewrite chronological_unfold. apply Forall_app.
  split; [by apply Forall_drop | by apply Forall_take].
Qed.

Lemma all_zero_app a b : Np.all_zero (a ++ b) = Np.all_zero a && Np.all_zero b.
Proof. unfold Np.all_zero. apply forallb_app. Qed.

Lemma all_zero_chronological buf idx :
  Np.all_zero (chronological buf idx) = Np.all_zero buf.
Proof.
  rewrite chronological_unfold, all_zero_app, andb_comm, <- all_zero_app.
  by rewrite take_drop.
Qed.

Lemma pushes_snoc w ps x : pushes w (ps ++ [x]) = push (pushes w ps) x.
Proof. unfold pushes. by rewrite foldl_app. Qed.

(** A row with a non-zero entry in the live buffer passes the emptiness
    test of [update_plot]. *)
Lemma live_test_passes w x :
  wf w -> forallb (fun v => Qeq_bool v 0) x = false ->
  Np.all_zero (live_buffer (push w x)) = false.
Proof.
  intros Hw Hx. destruct (push_read_out w x Hw) as (E & _).
  rewrite <- (all_zero_chronological _ (live_index (push w x))).
  fold (data_to_plot (push w x)). rewrite E, all_zero_app. simpl.
  rewrite Hx. simpl. apply andb_false_r.
Qed.

Lemma all_zero_zeros steps n : Np.all_zero (zeros steps n) = true.
Proof.
  unfold Np.all_zero, zeros. apply forallb_forall. intros r Hr.
  apply list_elem_of_In, elem_of_replicate in Hr as [-> _].
  apply forallb_forall. intros v Hv.
  by apply list_elem_of_In, elem_of_replicate in Hv as [-> _].
Qed.

End Aggregator.

(** ** The peak of the mean spectrum *)

Section PeakOfPushedRows.

Import Inno2.

(** The averaging read-out of a session always has its 1500 rows of [n]
    entries. *)
Lemma avg_data_rows (n : nat) (ps : list row) :
  Forall (fun r => length r = n) ps ->
  let w := pushes (fresh n) ps in
  cols w = n /\ length (avg_data w) = 1500 /\
  Forall (fun r => length r = n) (avg_data w).
Proof.
  intros Hps w.
  destruct (pushes_index _ ps (fresh_wf n)) as (_ & _ & _ & _ & _ & S3 & Hc).
  destruct (wf_read_out_length w (pushes_wf _ ps (fresh_wf n))) as (_ & _ & La).
  fold w in S3, Hc. split; [exact Hc|]. split.
  - rewrite La, S3. reflexivity.
  - apply chronological_Forall.
    by apply (pushes_shape _ _ ps Hps (alloc_shape _ _ _ n)).
Qed.

(** The index that [update_plot] looks up in the frequency axis. *)
Lemma peak_freq_first_max (n : nat) (ps : list row) (freqs : list Q) :
  0 < n -> Forall (fun r => length r = n) ps -> length freqs = n ->
  let w := pushes (fresh n) ps in
  let mean := Np.mean_axis0_double (cols w) (avg_data w) in
  exists i m,
    peak_freq w freqs = nth i freqs 0%Q /\ i < length freqs /\
    mean !! i = Some m /\
    (forall j y, mean !! j = Some y -> (y <= m)%Q) /\
    (forall j y, j < i -> mean !! j = Some y -> (y < m)%Q).
Proof.
  intros Hn Hps Hf w mean.
  destruct (avg_data_rows n ps Hps) as (Hc & Hlen & Hshape). fold w in Hc, Hlen, Hshape.
  assert (Hm : length mean = n).
  { subst mean. rewrite Hc. apply mean_axis0_double_length; [|done].
    intros E. rewrite E in Hlen. done. }
  destruct (argmax_first_max mean) as (m & Hi & Hmax & Hfirst).
  { intros E. rewrite E in Hm. simpl in Hm. lia. }
  exists (Np.argmax mean), m. split; [done|]. split; [|done].
  apply lookup_lt_Some in Hi. lia.
Qed.

(** Once the last 500 pushed rows are all zero the live buffer is all zero,
    whatever was pushed before. *)
Lemma quiet_live_window (n : nat) (ps zs : list row) :
  500 <= length zs -> Np.all_zero zs = true ->
  Np.all_zero (live_buffer (pushes (fresh n) (ps ++ zs))) = true.
Proof.
  intros Hlen Hz.
  rewrite <- (all_zero_chronological _ (live_index (pushes (fresh n) (ps ++ zs)))).
  fold (data_to_plot (pushes (fresh n) (ps ++ zs))).
  destruct (pushes_read_out _ (ps ++ zs) (fresh_wf n)) as (-> & _).
  change (data_to_plot (fresh n)) with (replicate 500 (replicate n 0%Q)).
  rewrite app_assoc, drop_app_ge
    by (rewrite !length_app, length_replicate; lia).
  set (k := length (ps ++ zs) - length (replicate 500 (replicate n 0%Q) ++ ps)).
  rewrite <- (take_drop k zs), all_zero_app in Hz.
  by apply andb_true_iff in Hz as [_ Hz].
Qed.

End PeakOfPushedRows.

(** C6 (as amended). In every state of a session of the ring program
    (buffers of [start_observation], any rows of [n] entries pushed), the
    peak frequency computed by [update_plot] is the entry of the frequency
    axis at the smallest index attaining the maximum of
    [np.mean(avg_data, axis=0)]. That vector is the mean as numpy computes
    it in double precision over the 1500 rows read out: each column is
    added up row after row with a rounding after every addition, and the
    sum is divided by 1500 and rounded. Whether a frequency is shown does
    not depend on the averaging window: the tick shows this value exactly
    when its first test finds a non-zero entry in the live buffer, which is
    the case when the last pushed row has one, and it shows nothing once
    the last 500 pushed rows are all zero. With the mean maximal at bins 3
    and 7 the frequency of bin 3 is returned. On freshly allocated buffers
    the tick returns early and yields no frequency. *)
Theorem peak_frequency_first_maximum :
  (forall (n : nat) (ps : list Inno2.row) (freqs : list Q),
     0 < n -> Forall (fun r => length r = n) ps -> length freqs = n ->
     let w := Inno2.pushes (Inno2.fresh n) ps in
     let mean := Np.mean_axis0_double (Inno2.cols w) (Inno2.avg_data w) in
     (exists i m,
        Inno2.peak_freq w freqs = nth i freqs 0%Q /\ i < length freqs /\
        mean !! i = Some m /\
        (forall j y, mean !! j = Some y -> (y <= m)%Q) /\
        (forall j y, j < i -> mean !! j = Some y -> (y < m)%Q)) /\
     (exists r a,
        Inno2.avg_data w = r :: a /\ length (r :: a) = 1500 /\
        forall j, j < n ->
          mean !! j
          = Some (Np.true_divide
                    (foldl Np.add (nth j r 0%Q) (map (fun x => nth j x 0%Q) a))
                    (inject_Z 1500)))) /\
  (forall w w' freqs,
     (Np.all_zero (Inno2.live_buffer w) = false ->
      Inno2.update_plot w w' freqs
      = Some (Inno2.data_to_plot w, Inno2.peak_freq w' freqs)) /\
     (Np.all_zero (Inno2.live_buffer w) = true ->
      Inno2.update_plot w w' freqs = None)) /\
  (forall (n : nat) (ps : list Inno2.row) (x : Inno2.row) w' freqs,
     forallb (fun v => Qeq_bool v 0) x = false ->
     Inno2.update_plot (Inno2.pushes (Inno2.fresh n) (ps ++ [x])) w' freqs
     = Some (Inno2.data_to_plot (Inno2.pushes (Inno2.fresh n) (ps ++ [x])),
             Inno2.peak_freq w' freqs)) /\
  (forall (n : nat) (ps zs : list Inno2.row) w' freqs,
     500 <= length zs -> Np.all_zero zs = true ->
     Inno2.update_plot (Inno2.pushes (Inno2.fresh n) (ps ++ zs)) w' freqs = None) /\
  (let ps : list Inno2.row :=
     [[1; 2; 3; 9; 4; 5; 6; 7]%Q; [3; 2; 1; 7; 4; 5; 6; 9]%Q] in
   let freqs := Np.linspace 0 700 8 in
   let w2 := Inno2.pushes (Inno2.fresh 8) ps in
   let mean := Np.mean_axis0_double (Inno2.cols w2) (Inno2.avg_data w2) in
   (exists m3 m7, mean !! 3 = Some m3 /\ mean !! 7 = Some m7 /\ (m3 == m7)%Q /\
      forallb (fun y => Qle_bool y m3) mean = true) /\
   Inno2.update_plot w2 w2 freqs = Some (Inno2.data_to_plot w2, nth 3 freqs 0%Q) /\
   (nth 3 freqs 0 == 300)%Q) /\
  (forall (n : nat) w' freqs, Inno2.update_plot (Inno2.fresh n) w' freqs = None).
Proof.
  split; [|split; [|split; [|split; [|split]]]].
  - intros n ps freqs Hn Hps Hf w mean.
    split; [by apply peak_freq_first_max|].
    destruct (avg_data_rows n ps Hps) as (Hc & Hlen & Hshape).
    fold w in Hc, Hlen, Hshape.
    assert (exists r a, Inno2.avg_data w = r :: a) as (r & a & E).
    { destruct (Inno2.avg_data w) as [|r a]; [done | eauto]. }
    rewrite E in Hlen, Hshape.
    exists r, a. split; [done|]. split; [done|].
    intros j Hj. subst mean. rewrite Hc, E.
    apply Forall_cons in Hshape as [Hr Ha].
    etransitivity; [exact (mean_axis0_double_lookup n r a j Hr Ha Hj)|].
    do 3 f_equal. exact (f_equal Z.of_nat Hlen).
  - intros w w' freqs. unfold Inno2.update_plot.
    split; intros ->; reflexivity.
  - intros n ps x w' freqs Hx. unfold Inno2.update_plot.
    rewrite pushes_snoc, live_test_passes; [done | | done].
    apply pushes_wf, fresh_wf.
  - intros n ps zs w' freqs Hlen Hz. unfold Inno2.update_plot.
    by rewrite quiet_live_window.
  - split; [|split].
    + eexists _, _. split; [vm_compute; reflexivity|]. split; [vm_compute; reflexivity|].
      split; vm_compute; reflexivity.
    + vm_compute. reflexivity.
    + vm_compute. reflexivity.
  - intros n w' freqs. unfold Inno2.update_plot.
    change (Inno2.live_buffer (Inno2.fresh n))
      with (Inno2.zeros (Inno2.steps_of Inno2.live_duration) n).
    by rewrite all_zero_zeros.
Qed.

Lemma peak_frequency_first_maximum_witness :
  let ps : list Inno2.row := [[1; 5]%Q; [2; 1]%Q] in
  let freqs := [0; 10]%Q in
  let w := Inno2.pushes (Inno2.fresh 2) ps in
  exists i, Inno2.peak_freq w freqs = nth i freqs 0%Q /\ i < 2.
Proof.
  intros ps freqs w.
  destruct peak_frequency_first_maximum as [H _].
  destruct (H 2 ps freqs) as [(i & m & E & Hi & _) _].
  - lia.
  - repeat constructor.
  - reflexivity.
  - exists i. split; [exact E | exact Hi].
Defined.

(** C6 as stated fails on a quiet live window. One row with a clear maximum
    at bin 0 is pushed, then 500 zero rows: the averaging window still holds
    the non-zero row, so the snapshot is not empty and its mean has its only
    maximum at bin 0, yet the tick yields no frequency, because the live
    buffer is all zero. *)
Lemma peak_unavailable_on_non_empty_window_counterexample :
  let ps : list Inno2.row := [5; 1]%Q :: replicate 500 [0; 0]%Q in
  let freqs := [0; 50]%Q in
  let w := Inno2.pushes (Inno2.fresh 2) ps in
  let mean := Np.mean_axis0_double (Inno2.cols w) (Inno2.avg_data w) in
  length (Inno2.avg_data w) = 1500 /\
  Inno2.avg_data w !! 999 = Some [5; 1]%Q /\
  Np.all_zero (Inno2.avg_data w) = false /\
  Np.argmax mean = 0 /\
  Inno2.update_plot w w freqs = None.
Proof.
  vm_compute. repeat split; reflexivity.
Qed.

(** The maximum is that of the rounded mean, not of the exact one. The
    three rows hold the doubles nearest to 0.3, 0.2, 0.1 and to 0.1, 0.2,
    0.3: the exact column sums are equal, so the exact means tie and their
    first maximum is bin 0; added in this order in double precision the
    second column comes out larger, and the program shows bin 1. *)
Example double_mean_moves_the_peak :
  let d := Np.float64 in
  let ps : list Inno2.row :=
    [[d (3 # 10); d (1 # 10)]; [d (2 # 10); d (2 # 10)]; [d (1 # 10); d (3 # 10)]] in
  let w := Inno2.pushes (Inno2.fresh 2) ps in
  Np.argmax (Np.mean_axis0 (Inno2.cols w) (Inno2.avg_data w)) = 0 /\
  Np.argmax (Np.mean_axis0_double (Inno2.cols w) (Inno2.avg_data w)) = 1 /\
  Inno2.peak_freq w [0; 50]%Q = 50%Q.
Proof.
  vm_compute. repeat split; reflexivity.
Qed.

(** ** Empty windows *)

Section ZeroRows.

Import Inno2.

Lemma all_zero_insert buf i (x : row) :
  Np.all_zero buf = true -> forallb (fun v => Qeq_bool v 0) x = true ->
  Np.all_zero (<[i := x]> buf) = true.
Proof.
  unfold Np.all_zero. revert i. induction buf as [|r buf IH]; intros i Hb Hx; [done|].
  simpl in Hb. apply andb_true_iff in Hb as [Hr Hb].
  destruct i; simpl.
  - by rewrite Hx, Hb.
  - by rewrite Hr, IH.
Qed.

(** Pushing rows of zeros leaves every buffer entirely zero. *)
Lemma pushes_zero_rows w zs :
  Forall (fun r => forallb (fun v => Qeq_bool v 0) r = true) zs ->
  Np.all_zero (live_buffer w) = true /\ Np.all_zero (save_buffer w) = true /\
  Np.all_zero (avg_buffer w) = true ->
  Np.all_zero (live_buffer (pushes w zs)) = true /\
  Np.all_zero (save_buffer (pushes w zs)) = true /\
  Np.all_zero (avg_buffer (pushes w zs)) = true.
Proof.
  intros Hzs. revert w. induction Hzs as [|z zs Hz _ IH]; intros w (Hl & Hs & Ha); [done|].
  apply IH. simpl. repeat split; by apply all_zero_insert.
Qed.

End ZeroRows.

(** C10. The ring program decides emptiness by value: [save_outputs] writes
    no file and [update_plot] draws nothing whenever the buffer they test
    holds only zeros. So after any number of all-zero rows pushed into
    freshly allocated buffers the saver writes no file, exactly as it does
    on the buffers before any push. *)
Theorem zero_rows_look_empty :
  (forall w fs n freqs base_name,
     Np.all_zero (Inno2.save_buffer w) = true ->
     Inno2.save_outputs w fs n freqs base_name = []) /\
  (forall w w' freqs,
     Np.all_zero (Inno2.live_buffer w) = true ->
     Inno2.update_plot w w' freqs = None) /\
  (forall (k : nat) (zs : list Inno2.row) w' fs n freqs base_name,
     Forall (fun r => forallb (fun v => Qeq_bool v 0) r = true) zs ->
     let w := Inno2.pushes (Inno2.fresh k) zs in
     Inno2.save_outputs w fs n freqs base_name = [] /\
     Inno2.save_outputs w fs n freqs base_name
     = Inno2.save_outputs (Inno2.fresh k) fs n freqs base_name /\
     Inno2.update_plot w w' freqs = None).
Proof.
  assert (Hsave : forall w fs n freqs base_name,
            Np.all_zero (Inno2.save_buffer w) = true ->
            Inno2.save_outputs w fs n freqs base_name = []).
  { intros w fs n freqs base_name H. unfold Inno2.save_outputs. by rewrite H. }
  assert (Hplot : forall w w' freqs,
            Np.all_zero (Inno2.live_buffer w) = true ->
            Inno2.update_plot w w' freqs = None).
  { intros w w' freqs H. unfold Inno2.update_plot. by rewrite H. }
  split; [done|]. split; [done|].
  intros k zs w' fs n freqs base_name Hzs w.
  assert (H0 : Np.all_zero (Inno2.live_buffer (Inno2.fresh k)) = true /\
               Np.all_zero (Inno2.save_buffer (Inno2.fresh k)) = true /\
               Np.all_zero (Inno2.avg_buffer (Inno2.fresh k)) = true).
  { repeat split; apply all_zero_zeros. }
  destruct (pushes_zero_rows _ zs Hzs H0) as (Hl & Hs & _).
  destruct H0 as (_ & Hs0 & _).
  rewrite !Hsave by done. by rewrite Hplot.
Qed.

Lemma zero_rows_look_empty_witness :
  let zs : list Inno2.row := [[0; 0; 0]%Q; [0; 0 # 7; 0]%Q] in
  let w := Inno2.pushes (Inno2.fresh 3) zs in
  Inno2.save_index w = 2 /\
  Inno2.save_outputs w 1000 3 [0; 250; 500]%Q "Udaipur_PRL" = [].
Proof.
  intros zs w. split; [reflexivity|].
  destruct zero_rows_look_empty as (_ & _ & H).
  apply (H 3 zs w 1000%Z 3%Z [0; 250; 500]%Q "Udaipur_PRL"%string).
  repeat constructor.
Defined.

(** C9. Saving an empty window writes nothing and cannot fail: in the ring
    program on the buffers [start_observation] has just allocated, in the
    socket program whenever [self.data] is empty, which is the case right
    after [start_observation]. The file list is the only effect of
    [save_outputs]; it assigns no attribute. *)
Theorem save_outputs_empty_is_noop :
  (forall (k : nat) fs n freqs base_name,
     Inno2.save_outputs (Inno2.fresh k) fs n freqs base_name = []) /\
  (forall np fs_int n_int a fs n freqs base_name,
     Inno2.running (Inno2.start_observation np fs_int n_int Inno2.init) = true ->
     Inno2.wins (Inno2.start_observation np fs_int n_int Inno2.init) = Some a ->
     Inno2.save_outputs a fs n freqs base_name = []) /\
  (forall ts fs n freqs base_name,
     Tcp.save_outputs {| Tcp.data := []; Tcp.timestamps := ts |} fs n freqs base_name = []) /\
  (forall np fs_int n_int port_int fs n freqs base_name,
     Tcp.running (Tcp.start_observation np fs_int n_int port_int Tcp.init) = true ->
     Tcp.save_outputs
       (Tcp.store (Tcp.start_observation np fs_int n_int port_int Tcp.init))
       fs n freqs base_name = []).
Proof.
  assert (Hfresh : forall (k : nat) fs n freqs base_name,
            Inno2.save_outputs (Inno2.fresh k) fs n freqs base_name = []).
  { intros. unfold Inno2.save_outputs.
    change (Inno2.save_buffer (Inno2.fresh k))
      with (Inno2.zeros (Inno2.steps_of Inno2.save_duration) k).
    by rewrite all_zero_zeros. }
  split; [done|]. split; [|split; [done|]].
  - intros np fs_int n_int a fs n freqs base_name.
    unfold Inno2.start_observation.
    destruct fs_int as [f|]; [|done]. destruct n_int as [k|]; [|done].
    destruct (_ && _); [|done].
    destruct (Py.half_raises f); [done|].
    destruct (Np.linspace_returns np k); [|done].
    destruct (Np.zeros_returns np _ k); [|done].
    destruct (Np.zeros_returns np _ k); [|done].
    destruct (Np.zeros_returns np _ k); [|done].
    intros _ [= <-]. apply (Hfresh (Z.to_nat k)).
  - intros np fs_int n_int port_int fs n freqs base_name.
    unfold Tcp.start_observation.
    destruct fs_int as [f|]; [|done]. destruct n_int as [k|]; [|done].
    destruct port_int as [p|]; [|done].
    destruct (_ && _); [|done].
    destruct (Py.half_raises f); [done|].
    by destruct (Np.linspace_returns np k).
Qed.

Lemma save_outputs_empty_is_noop_witness :
  let a := Inno2.start_observation Np.roomy (Some 2000%Z) (Some 4%Z) Inno2.init in
  Inno2.running a = true /\
  exists w, Inno2.wins a = Some w /\
            Inno2.save_outputs w 2000 4 [0; 1; 2; 3]%Q "Udaipur_PRL" = [].
Proof.
  intros a. split; [reflexivity|].
  exists (Inno2.fresh 4). split; [reflexivity|].
  destruct save_outputs_empty_is_noop as (_ & H & _).
  apply (H Np.roomy (Some 2000%Z) (Some 4%Z)); reflexivity.
Defined.

(** ** The timestamped window of the socket program *)

Section Deque.

Import Tcp.

Lemma drop_S_tail {A} k (d : list A) : drop (S k) d = drop k (tail d).
Proof. destruct d; simpl; [by rewrite drop_nil | done]. Qed.

(** Eviction removes a prefix of both lists, and what it leaves starts at or
    after the cutoff. *)
Lemma evict_suffix cutoff ts d :
  exists k,
    k <= length ts /\
    timestamps (evict cutoff ts d) = drop k ts /\
    data (evict cutoff ts d) = drop k d /\
    (forall t, head (drop k ts) = Some t -> (cutoff <= t)%Q).
Proof.
  revert d. induction ts as [|t ts IH]; intros d.
  - exists 0. simpl. repeat split; [lia | done].
  - simpl. destruct (Np.Qltb t cutoff) eqn:Hcmp.
    + destruct (IH (tail d)) as (k & Hk & Ht & Hd & Hh).
      exists (S k). rewrite (drop_S_tail k d). simpl. repeat split; try done. lia.
    + exists 0. simpl. repeat split; try done; [lia|].
      intros t' [= <-]. by apply Qltb_ge.
Qed.

Lemma push_suffix ta tc x w :
  exists k,
    k <= length (timestamps w) + 1 /\
    timestamps (push ta tc x w) = drop k (timestamps w ++ [ta]) /\
    data (push ta tc x w) = drop k (data w ++ [x]) /\
    (forall t, head (timestamps (push ta tc x w)) = Some t -> (tc - 10 <= t)%Q).
Proof.
  unfold push.
  destruct (evict_suffix (tc - 10)%Q (timestamps w ++ [ta]) (data w ++ [x]))
    as (k & Hk & Ht & Hd & Hh).
  exists k. rewrite length_app in Hk. simpl in Hk.
  repeat split; try done. intros t. rewrite Ht. apply Hh.
Qed.

Lemma push_lengths ta tc x w :
  length (data w) = length (timestamps w) ->
  length (data (push ta tc x w)) = length (timestamps (push ta tc x w)).
Proof.
  intros Hl. destruct (push_suffix ta tc x w) as (k & _ & -> & -> & _).
  rewrite !length_drop, !length_app. simpl. lia.
Qed.

(** A run of pushes leaves a suffix of what was there followed by what was
    appended, the same suffix in both lists. *)
Lemma run_suffix ps w :
  length (data w) = length (timestamps w) ->
  exists k,
    timestamps (run w ps) = drop k (timestamps w ++ map (fun p => p.1.1) ps) /\
    data (run w ps) = drop k (data w ++ map (fun p => p.2) ps).
Proof.
  revert w. induction ps as [|[[ta tc] x] ps IH]; intros w Hl.
  - exists 0. simpl. by rewrite !app_nil_r.
  - change (run w ((ta, tc, x) :: ps)) with (run (push ta tc x w) ps).
    destruct (IH _ (push_lengths ta tc x w Hl)) as (k' & Ht' & Hd').
    destruct (push_suffix ta tc x w) as (k & Hk & Ht & Hd & _).
    exists (k + k'). rewrite Ht', Hd', Ht, Hd. simpl map.
    assert (Hsnoc : forall {A} (l : list A) y r, l ++ y :: r = (l ++ [y]) ++ r)
      by (intros; by rewrite <- app_assoc).
    rewrite (Hsnoc _ (timestamps w) ta (map _ ps)), (Hsnoc _ (data w) x (map _ ps)).
    rewrite <- !drop_drop.
    rewrite (drop_app_le (timestamps w ++ [ta])) by (rewrite length_app; simpl; lia).
    rewrite (drop_app_le (data w ++ [x])) by (rewrite length_app; simpl; lia).
    done.
Qed.

Lemma run_snoc w ps p : run w (ps ++ [p]) = push p.1.1 p.1.2 p.2 (run w ps).
Proof. unfold run. rewrite foldl_app. by destruct p as [[? ?] ?]. Qed.

Lemma StronglySorted_drop (R : relation Q) k (l : list Q) :
  StronglySorted R l -> StronglySorted R (drop k l).
Proof.
  intros H. rewrite <- (take_drop k l) in H. by apply StronglySorted_app_1_r in H.
Qed.

Lemma sorted_head_bound (c : Q) (l : list Q) :
  StronglySorted Qle l ->
  (forall t, head l = Some t -> (c <= t)%Q) ->
  Forall (fun t => (c <= t)%Q) l.
Proof.
  intros Hs Hh. destruct l as [|t l]; [constructor|].
  apply StronglySorted_inv in Hs as [_ Hall].
  pose proof (Hh t eq_refl) as Hc.
  constructor; [done|].
  eapply Forall_impl; [exact Hall|]. intros y Hy. simpl in Hy.
  eapply Qle_trans; [exact Hc | exact Hy].
Qed.

End Deque.

Section DequeInvariants.

Import Tcp.

(** The window after a run of pushes with non-decreasing appended time
    stamps, started empty. *)
Lemma run_invariants (ps : list (Q * Q * sample)) :
  StronglySorted Qle (map (fun p => p.1.1) ps) ->
  let w := run empty ps in
  StronglySorted Qle (timestamps w) /\
  length (data w) = length (timestamps w) /\
  (exists k,
     timestamps w = drop k (map (fun p => p.1.1) ps) /\
     data w = drop k (map (fun p => p.2) ps)) /\
  (forall t_append now x,
     last ps = Some (t_append, now, x) ->
     Forall (fun t => (now - 10 <= t)%Q) (timestamps w)).
Proof.
  intros Hsorted w.
  destruct (run_suffix ps empty eq_refl) as (k & Ht & Hd).
  simpl in Ht, Hd. fold w in Ht, Hd.
  assert (Hw : StronglySorted Qle (timestamps w)).
  { rewrite Ht. by apply StronglySorted_drop. }
  split; [done|]. split.
  { rewrite Ht, Hd, !length_drop, !length_map. done. }
  split; [by exists k|].
  intros ta now x Hlast.
  apply last_Some in Hlast as [ps' Hps'].
  apply sorted_head_bound; [done|].
  subst w. rewrite Hps', run_snoc. simpl.
  destruct (push_suffix ta now x (run empty ps')) as (_ & _ & _ & _ & Hh).
  exact Hh.
Qed.

Variable clock : nat -> Q.

Lemma stamped_app t (o1 o2 : list sample) :
  stamped clock t (o1 ++ o2)
  = stamped clock t o1 ++ stamped clock (t + 2 * length o1) o2.
Proof.
  revert t. induction o1 as [|x o1 IH]; intros t; simpl.
  - by rewrite Nat.add_0_r.
  - rewrite IH. do 3 f_equal. lia.
Qed.

(** The window the inner loop leaves is the one obtained by pushing the
    delivered samples with successive clock readings. *)
Lemma drain_run fuel n st out st' :
  drain clock fuel n st = Some (out, st') ->
  win st' = run (win st) (stamped clock (ticks st) out) /\
  ticks st' = ticks st + 2 * length out.
Proof.
  revert st out st'. induction fuel as [|fuel IH]; intros st out st'; simpl.
  - destruct (_ <=? _); [done|]. intros [= <- <-]. simpl. split; [done | lia].
  - destruct (_ <=? _); [|intros [= <- <-]; simpl; split; [done | lia]].
    match goal with |- context [drain clock fuel n ?s] =>
      destruct (drain clock fuel n s) as [[out1 st1]|] eqn:E; [|done] end.
    intros [= <- <-]. destruct (IH _ _ _ E) as [Hw Ht]. simpl in Hw, Ht.
    simpl. split; [exact Hw | lia].
Qed.

Lemma receive_run fuel n chunks st out st' :
  receive_data_tcp clock fuel n chunks st = Some (out, st') ->
  win st' = run (win st) (stamped clock (ticks st) out) /\
  ticks st' = ticks st + 2 * length out.
Proof.
  revert st out st'. induction chunks as [|c cs IH]; intros st out st'; simpl.
  - intros [= <- <-]. simpl. split; [done | lia].
  - match goal with |- context [drain clock fuel n ?s] =>
      destruct (drain clock fuel n s) as [[out1 st1]|] eqn:E1; [|done] end.
    destruct (receive_data_tcp clock fuel n cs st1) as [[out2 st2]|] eqn:E2; [|done].
    intros [= <- <-].
    destruct (drain_run _ _ _ _ _ E1) as [Hw1 Ht1]. cbn [ticks win] in Hw1, Ht1.
    destruct (IH _ _ _ E2) as [Hw2 Ht2].
    rewrite stamped_app, length_app. unfold run in *. rewrite foldl_app.
    rewrite <- Hw1, <- Ht1. split; [exact Hw2 | lia].
Qed.

Hypothesis clock_monotone : forall k, (clock k <= clock (S k))%Q.

Lemma clock_le i j : i <= j -> (clock i <= clock j)%Q.
Proof.
  induction 1 as [|j _ IH]; [apply Qle_refl|].
  eapply Qle_trans; [exact IH | apply clock_monotone].
Qed.

Lemma stamped_sorted t (out : list sample) :
  StronglySorted Qle (map (fun p => p.1.1) (stamped clock t out)) /\
  forall t0, t0 <= t ->
    Forall (fun y => (clock t0 <= y)%Q) (map (fun p => p.1.1) (stamped clock t out)).
Proof.
  revert t. induction out as [|x out IH]; intros t; simpl.
  - split; [constructor | intros; constructor].
  - destruct (IH (S (S t))) as [Hs Hb]. split.
    + constructor; [exact Hs | apply Hb; lia].
    + intros t0 Ht0. constructor; [by apply clock_le | apply Hb; lia].
Qed.

(** With a clock that never goes back, the window of the receiver thread
    satisfies the invariants after every chunk. *)
Lemma receiver_window_invariants fuel n chunks out st :
  receive_data_tcp clock fuel n chunks rx_init = Some (out, st) ->
  StronglySorted Qle (timestamps (win st)) /\
  length (data (win st)) = length (timestamps (win st)) /\
  (forall t_append now x,
     last (stamped clock 0 out) = Some (t_append, now, x) ->
     Forall (fun t => (now - 10 <= t)%Q) (timestamps (win st))).
Proof.
  intros E. destruct (receive_run _ _ _ _ _ _ E) as [Hw _]. simpl in Hw.
  destruct (run_invariants (stamped clock 0 out)) as (H1 & H2 & _ & H4).
  { apply stamped_sorted. }
  rewrite Hw. done.
Qed.

End DequeInvariants.




(** ** De-framing of the socket stream *)

Section Deframing.

Import Tcp.

Variable clock : nat -> Q.

Lemma frombuffer_length_mul k (b : list byte) :
  length b = k * 4 -> length (frombuffer b) = k.
Proof.
  revert b. induction k as [|k IH]; intros b Hb.
  - by destruct b.
  - destruct b as [|b0 [|b1 [|b2 [|b3 b]]]]; simpl in Hb; try lia.
    simpl. f_equal. apply IH. lia.
Qed.

Lemma records_small n (s : list byte) : length s < n * 4 -> records n s = [].
Proof. intros H. unfold records. by rewrite Nat.div_small. Qed.

Lemma remainder_small n (s : list byte) : length s < n * 4 -> remainder n s = s.
Proof. intros H. unfold remainder. by rewrite Nat.div_small, Nat.mul_0_r by done. Qed.

Lemma div_step a b : 0 < b -> b <= a -> a / b = S ((a - b) / b).
Proof.
  intros Hb Hab. replace a with ((a - b) + 1 * b) at 1 by lia.
  rewrite Nat.div_add by lia. lia.
Qed.

Lemma records_step n (s : list byte) :
  0 < n -> n * 4 <= length s ->
  records n s = frombuffer (take (n * 4) s) :: records n (drop (n * 4) s).
Proof.
  intros Hn Hs. unfold records.
  rewrite (div_step (length s) (n * 4)) by lia.
  rewrite length_drop. simpl seq. simpl map.
  rewrite Nat.mul_0_r, drop_0. f_equal.
  rewrite <- seq_shift, map_map. apply map_ext. intros i.
  rewrite drop_drop. by replace (n * 4 * S i) with (n * 4 + n * 4 * i) by lia.
Qed.

Lemma remainder_step n (s : list byte) :
  0 < n -> n * 4 <= length s -> remainder n s = remainder n (drop (n * 4) s).
Proof.
  intros Hn Hs. unfold remainder.
  rewrite (div_step (length s) (n * 4)) by lia.
  rewrite length_drop, drop_drop. f_equal. lia.
Qed.

Lemma remainder_length n (s : list byte) : 0 < n -> length (remainder n s) < n * 4.
Proof.
  intros Hn. unfold remainder. rewrite length_drop.
  pose proof (Nat.div_mod_eq (length s) (n * 4)).
  pose proof (Nat.mod_upper_bound (length s) (n * 4)). lia.
Qed.

(** Whole records in front of a stream come out first and do not change
    what the rest yields. *)
Lemma records_app n k (p t : list byte) :
  0 < n -> length p = k * (n * 4) ->
  records n (p ++ t) = records n p ++ records n t /\
  remainder n (p ++ t) = remainder n t.
Proof.
  intros Hn. revert p. induction k as [|k IH]; intros p Hp.
  - destruct p; [|simpl in Hp; lia]. simpl. by rewrite (records_small n []) by (simpl; lia).
  - assert (Hlen : n * 4 <= length p) by lia.
    rewrite (records_step n (p ++ t)), (records_step n p), (remainder_step n (p ++ t))
      by (try rewrite length_app; lia).
    rewrite take_app_le, drop_app_le by lia.
    destruct (IH (drop (n * 4) p)) as [-> ->]; [rewrite length_drop; lia|].
    done.
Qed.

Lemma stream_split n (s : list byte) :
  exists p, s = p ++ remainder n s /\ length p = (length s / (n * 4)) * (n * 4).
Proof.
  exists (take (n * 4 * (length s / (n * 4))) s). split.
  - unfold remainder. by rewrite take_drop.
  - rewrite length_take.
    pose proof (Nat.div_mod_eq (length s) (n * 4)). lia.
Qed.

(** The inner loop delivers the complete records of the buffer and keeps
    the remainder. *)
Lemma drain_records fuel n st :
  0 < n -> length (buffer st) < fuel ->
  exists st',
    drain clock fuel n st = Some (records n (buffer st), st') /\
    buffer st' = remainder n (buffer st).
Proof.
  intros Hn. revert st. induction fuel as [|fuel IH]; intros st Hf; [lia|].
  simpl. destruct (Nat.leb_spec (n * 4) (length (buffer st))) as [Hle|Hlt].
  - match goal with |- context [drain clock fuel n ?s] => destruct (IH s) as (st' & E & Hb) end.
    { simpl. rewrite length_drop. lia. }
    rewrite E. simpl in Hb. exists st'. split.
    + by rewrite (records_step n (buffer st)).
    + by rewrite (remainder_step n (buffer st)).
  - exists st. by rewrite records_small, remainder_small.
Qed.

Lemma receive_records fuel n chunks st :
  0 < n -> length (buffer st) < n * 4 ->
  length (buffer st ++ concat chunks) < fuel ->
  exists st',
    receive_data_tcp clock fuel n chunks st
    = Some (records n (buffer st ++ concat chunks), st') /\
    buffer st' = remainder n (buffer st ++ concat chunks).
Proof.
  intros Hn. revert st. induction chunks as [|c cs IH]; intros st Hb Hf.
  - simpl. rewrite app_nil_r. exists st.
    by rewrite records_small, remainder_small.
  - simpl. simpl in Hf. rewrite app_assoc in Hf. rewrite !app_assoc.
    set (st1 := {| buffer := buffer st ++ c; win := win st; ticks := ticks st |}).
    destruct (drain_records fuel n st1 Hn) as (st2 & E2 & Hb2).
    { simpl. rewrite length_app in Hf. lia. }
    simpl in E2, Hb2. rewrite E2.
    destruct (stream_split n (buffer st ++ c)) as (p & Hsplit & Hp).
    pose proof (remainder_length n (buffer st ++ c) Hn) as Hr.
    rewrite <- Hb2 in Hsplit, Hr.
    destruct (IH st2 Hr) as (st3 & E3 & Hb3).
    { rewrite Hsplit, <- app_assoc, length_app in Hf. lia. }
    rewrite E3. exists st3.
    destruct (records_app n _ p (buffer st2) Hn Hp) as [R1 _].
    destruct (records_app n _ p (buffer st2 ++ concat cs) Hn Hp) as [R2 M2].
    rewrite Hb3, Hsplit, R1, (records_small n (buffer st2)), app_nil_r by done.
    by rewrite <- !app_assoc, R2, M2.
Qed.

End Deframing.

(** ** What the receiver stores *)

Section ReceiverStore.

Import Tcp.

Variable clock : nat -> Q.

(** Eviction stops at once at a head that is not older than the cutoff. *)
Lemma evict_fresh_head (c t : Q) (ts : list Q) (d : list sample) :
  head ts = Some t -> (c <= t)%Q ->
  evict c ts d = {| data := d; timestamps := ts |}.
Proof.
  destruct ts as [|t' ts]; [done|]. intros [= ->] Hc. simpl.
  by rewrite (proj2 (Qltb_ge t c) Hc).
Qed.

(** While no cutoff passes the oldest time stamp, pushes only append. *)
Lemma run_appends (ps : list (Q * Q * sample)) (w : window) (t0 : Q) :
  head (timestamps w ++ map (fun p => p.1.1) ps) = Some t0 ->
  Forall (fun p => (p.1.2 - 10 <= t0)%Q) ps ->
  timestamps (run w ps) = timestamps w ++ map (fun p => p.1.1) ps /\
  data (run w ps) = data w ++ map (fun p => p.2) ps.
Proof.
  revert w. induction ps as [|[[ta tc] x] ps IH]; intros w Hh Hc.
  - simpl. by rewrite !app_nil_r.
  - apply Forall_cons in Hc as [Hc1 Hc]. simpl in Hc1.
    change (run w ((ta, tc, x) :: ps)) with (run (push ta tc x w) ps).
    assert (Hp : push ta tc x w
                 = {| data := data w ++ [x]; timestamps := timestamps w ++ [ta] |}).
    { unfold push. apply (evict_fresh_head _ t0); [|done].
      simpl in Hh. destruct (timestamps w); simpl in *; done. }
    rewrite Hp. destruct (IH {| data := data w ++ [x]; timestamps := timestamps w ++ [ta] |})
      as [Ht Hd]; [|done|].
    + simpl. by rewrite <- app_assoc.
    + rewrite Ht, Hd. simpl. by rewrite <- !app_assoc.
Qed.

Lemma stamped_data t (out : list sample) :
  map (fun p => p.2) (stamped clock t out) = out.
Proof. revert t. induction out as [|x out IH]; intros t; simpl; [done|]. by rewrite IH. Qed.

(** Sample [i] is appended with clock reading number [t + 2 i]. *)
Lemma stamped_times t (out : list sample) :
  map (fun p => p.1.1) (stamped clock t out)
  = map (fun i => clock (t + 2 * i)) (seq 0 (length out)).
Proof.
  revert t. induction out as [|x out IH]; intros t; [done|].
  cbn [stamped map length seq fst]. rewrite IH. f_equal; [f_equal; lia|].
  rewrite <- seq_shift, map_map. apply map_ext. intros i. f_equal. lia.
Qed.

(** Its cutoff is computed from reading number [t + 2 i + 1]. *)
Lemma stamped_cutoffs t (out : list sample) (P : Q -> Prop) :
  (forall i, i < length out -> P (clock (t + 2 * i + 1))) ->
  Forall (fun p => P p.1.2) (stamped clock t out).
Proof.
  revert t. induction out as [|x out IH]; intros t H; simpl; [constructor|].
  constructor.
  - cbn [fst snd]. replace (S t) with (t + 2 * 0 + 1) by lia. apply H. cbn [length]. lia.
  - apply IH. intros i Hi.
    replace (S (S t) + 2 * i + 1) with (t + 2 * S i + 1) by lia. apply H.
    cbn [length]. lia.
Qed.

(** The window after the receiver has run, from the empty window: what is
    stored is a suffix of the samples delivered, each with the clock reading
    of its append, and it is all of them when no cutoff passes the first
    reading. *)
Lemma receive_window fuel n chunks out st :
  receive_data_tcp clock fuel n chunks rx_init = Some (out, st) ->
  ticks st = 2 * length out /\
  (exists j,
     j <= length out /\
     data (win st) = drop j out /\
     timestamps (win st) = drop j (map (fun i => clock (2 * i)) (seq 0 (length out)))) /\
  ((forall i, i < length out -> (clock (2 * i + 1) - 10 <= clock 0)%Q) ->
   data (win st) = out /\
   timestamps (win st) = map (fun i => clock (2 * i)) (seq 0 (length out))).
Proof.
  intros E. destruct (receive_run clock _ _ _ _ _ _ E) as [Hw Ht].
  cbn [win ticks rx_init] in Hw, Ht. split; [lia|].
  pose proof (stamped_times 0 out) as Hst. pose proof (stamped_data 0 out) as Hsd.
  cbn [Nat.add] in Hst. split.
  - destruct (run_suffix (stamped clock 0 out) empty eq_refl) as (k & Hk1 & Hk2).
    rewrite <- Hw in Hk1, Hk2. cbn [empty timestamps data] in Hk1, Hk2.
    rewrite app_nil_l in Hk1, Hk2.
    rewrite Hst in Hk1. rewrite Hsd in Hk2.
    destruct (decide (k <= length out)) as [Hle|Hgt].
    + by exists k.
    + exists (length out). split; [done|].
      rewrite Hk1, Hk2, !drop_ge; try done;
        rewrite ?length_map, ?length_seq; lia.
  - intros Hc. rewrite Hw.
    destruct out as [|x out]; [done|].
    destruct (run_appends (stamped clock 0 (x :: out)) empty (clock 0)) as [H1 H2].
    + done.
    + apply (stamped_cutoffs 0 (x :: out) (fun c => (c - 10 <= clock 0)%Q)).
      intros i Hi. cbn [Nat.add]. by apply Hc.
    + cbn [empty timestamps data] in H1, H2. rewrite app_nil_l in H1, H2.
      by rewrite H1, H2, Hst, Hsd.
Qed.

End ReceiverStore.

(** C2. With [n > 0] floats per record, feed the receiver the chunks
    [chunks] of a byte stream, starting with an empty accumulation buffer
    and an empty window. The loops terminate (any fuel above the stream
    length is enough) and the samples appended to [self.data] are, in stream
    order, exactly the [K = length stream / (4 * n)] complete records of the
    concatenated stream, each decoded into [n] little-endian 32-bit values;
    the bytes after the last complete record, fewer than [4 * n], stay in
    the buffer. Each append reads the clock twice. What [self.data] holds at
    the end is a suffix of these [K] samples, in order, and
    [self.timestamps] the clock readings of their appends; it holds all [K]
    of them when no cutoff has passed the first reading. The result is a
    function of the stream only: any other chunking of the same stream gives
    the same samples, the same buffer and the same window. *)
Theorem socket_deframing (clock : nat -> Q) (n : nat) (chunks : list (list byte)) (fuel : nat) :
  0 < n -> length (concat chunks) < fuel ->
  let stream := concat chunks in
  let K := length stream / (n * 4) in
  exists st,
    Tcp.receive_data_tcp clock fuel n chunks Tcp.rx_init
    = Some (map (fun i => Tcp.frombuffer (take (n * 4) (drop (n * 4 * i) stream))) (seq 0 K),
            st) /\
    length (Tcp.records n stream) = K /\
    Forall (fun x => length x = n) (Tcp.records n stream) /\
    Tcp.buffer st = drop (n * 4 * K) stream /\
    length (Tcp.buffer st) < n * 4 /\
    Tcp.ticks st = 2 * K /\
    (exists j,
       j <= K /\
       Tcp.data (Tcp.win st) = drop j (Tcp.records n stream) /\
       Tcp.timestamps (Tcp.win st) = drop j (map (fun i => clock (2 * i)) (seq 0 K))) /\
    ((forall i, i < K -> (clock (2 * i + 1)%nat - 10 <= clock 0%nat)%Q) ->
     Tcp.data (Tcp.win st) = Tcp.records n stream /\
     Tcp.timestamps (Tcp.win st) = map (fun i => clock (2 * i)) (seq 0 K)) /\
    (forall chunks' fuel',
       concat chunks' = stream -> length stream < fuel' ->
       exists st',
         Tcp.receive_data_tcp clock fuel' n chunks' Tcp.rx_init
         = Some (Tcp.records n stream, st') /\
         Tcp.buffer st' = Tcp.buffer st /\
         Tcp.win st' = Tcp.win st).
Proof.
  intros Hn Hf stream K.
  destruct (receive_records clock fuel n chunks Tcp.rx_init Hn) as (st & E & Hb);
    [simpl; lia | done |].
  simpl in E, Hb. fold stream in E, Hb.
  assert (HK : length (Tcp.records n stream) = K).
  { unfold Tcp.records. by rewrite length_map, length_seq. }
  destruct (receive_window clock fuel n chunks _ st E) as (Ht & Hj & Hall).
  rewrite HK in Ht, Hj, Hall.
  exists st. split; [exact E|].
  split; [exact HK|].
  split.
  { unfold Tcp.records. apply Forall_forall. intros x Hx.
    apply list_elem_of_In, in_map_iff in Hx as (i & <- & Hi).
    apply in_seq in Hi. apply frombuffer_length_mul.
    rewrite length_take, length_drop.
    pose proof (Nat.div_mod_eq (length stream) (n * 4)).
    assert (n * 4 * S i <= n * 4 * (length stream / (n * 4))) by (apply Nat.mul_le_mono_l; lia).
    lia. }
  split; [exact Hb|].
  split; [rewrite Hb; by apply remainder_length|].
  split; [exact Ht|]. split; [exact Hj|]. split; [exact Hall|].
  intros chunks' fuel' Hc Hf'.
  destruct (receive_records clock fuel' n chunks' Tcp.rx_init Hn) as (st' & E' & Hb');
    [simpl; lia | simpl; by rewrite Hc |].
  simpl in E', Hb'. rewrite Hc in E', Hb'.
  exists st'. split; [exact E'|]. split; [by rewrite Hb, Hb'|].
  destruct (receive_run clock _ _ _ _ _ _ E) as [Hw _].
  destruct (receive_run clock _ _ _ _ _ _ E') as [Hw' _].
  by rewrite Hw, Hw'.
Qed.

Lemma socket_deframing_witness :
  let clock := fun k : nat => inject_Z (Z.of_nat k) in
  let chunks := [[x01; x02]; [x03]; [x04; x05; x06; x07; x08; x09]] in
  exists st,
    Tcp.receive_data_tcp clock 10 1 chunks Tcp.rx_init
    = Some ([[67305985%N]; [134678021%N]], st) /\
    Tcp.buffer st = [x09] /\
    Tcp.data (Tcp.win st) = [[67305985%N]; [134678021%N]] /\
    Tcp.timestamps (Tcp.win st) = [clock 0; clock 2].
Proof.
  intros clock chunks.
  destruct (socket_deframing clock 1 chunks 10) as (st & E & _ & _ & Hb & _ & _ & _ & Hall & _).
  - lia.
  - simpl. lia.
  - exists st. split; [exact E|]. split; [exact Hb|].
    apply Hall. intros i Hi.
    assert (Hi' : i < 2) by exact Hi.
    destruct i as [|[|i]]; [by vm_compute | by vm_compute | lia].
Defined.

(** ** Grid alignment *)

Section Grid.

Import Tcp.

Lemma bsearch_S fuel (a : list Q) v lo hi :
  bsearch (S fuel) a v lo hi
  = if lo <? hi then
      if Np.Qltb (nth (lo + (hi - lo) / 2) a 0%Q) v
      then bsearch fuel a v (lo + (hi - lo) / 2 + 1) hi
      else bsearch fuel a v lo (lo + (hi - lo) / 2)
    else lo.
Proof. reflexivity. Qed.

(** The binary search returns the left insertion point of [v] in a sorted
    array: everything before it is below [v], everything from it on is not. *)
Lemma bsearch_insertion_point (a : list Q) (v : Q) :
  (forall i j x y, i <= j -> a !! i = Some x -> a !! j = Some y -> (x <= y)%Q) ->
  forall fuel lo hi,
    hi - lo <= fuel -> lo <= hi -> hi <= length a ->
    (forall i x, i < lo -> a !! i = Some x -> (x < v)%Q) ->
    (forall i x, hi <= i -> a !! i = Some x -> (v <= x)%Q) ->
    let r := bsearch fuel a v lo hi in
    lo <= r /\ r <= hi /\
    (forall i x, i < r -> a !! i = Some x -> (x < v)%Q) /\
    (forall i x, r <= i -> a !! i = Some x -> (v <= x)%Q).
Proof.
  intros Hmono. induction fuel as [|fuel IH]; intros lo hi Hf Hlh Hha Hlow Hhigh.
  - simpl. assert (hi = lo) as -> by lia. repeat split; try done.
  - rewrite bsearch_S. destruct (Nat.ltb_spec lo hi) as [Hlt|Hge].
    + pose proof (Nat.div_mod_eq (hi - lo) 2) as Hdm.
      pose proof (Nat.mod_upper_bound (hi - lo) 2) as Hmb.
      set (mid := lo + (hi - lo) / 2) in *.
      assert (Hmid : lo <= mid /\ mid < hi) by (subst mid; lia).
      destruct (lookup_lt_is_Some_2 a mid) as [xm Hxm]; [lia|].
      rewrite (nth_lookup_Some _ _ 0%Q _ Hxm).
      destruct (Np.Qltb xm v) eqn:Hcmp.
      * apply Qltb_lt in Hcmp.
        destruct (IH (mid + 1) hi) as (H1 & H2 & H3 & H4); try lia; try done.
        { intros i x Hi Hx. eapply Qle_lt_trans; [|exact Hcmp].
          apply (Hmono i mid x xm); [lia | done | done]. }
        repeat split; try done; lia.
      * apply Qltb_ge in Hcmp.
        destruct (IH lo mid) as (H1 & H2 & H3 & H4); try lia; try done.
        { intros i x Hi Hx. eapply Qle_trans; [exact Hcmp|].
          apply (Hmono mid i xm x); [lia | done | done]. }
        repeat split; try done; lia.
    + assert (hi = lo) as -> by lia. repeat split; try done.
Qed.

Lemma searchsorted_insertion_point (a : list Q) (v : Q) :
  (forall i j x y, i <= j -> a !! i = Some x -> a !! j = Some y -> (x <= y)%Q) ->
  searchsorted a v <= length a /\
  (forall i x, i < searchsorted a v -> a !! i = Some x -> (x < v)%Q) /\
  (forall i x, searchsorted a v <= i -> a !! i = Some x -> (v <= x)%Q).
Proof.
  intros Hmono. unfold searchsorted.
  destruct (bsearch_insertion_point a v Hmono (length a) 0 (length a))
    as (_ & H2 & H3 & H4);
    [lia | lia | lia | intros; lia
    | intros i x Hi Hx; apply lookup_lt_Some in Hx; lia | done].
Qed.

Lemma linspace_length a b m : length (Np.linspace a b m) = m.
Proof. unfold Np.linspace. by rewrite length_map, length_seq. Qed.

Lemma linspace_lookup a b m i :
  i < m ->
  Np.linspace a b m !! i
  = Some (a + inject_Z (Z.of_nat i) * ((b - a) / inject_Z (Z.of_nat (m - 1))))%Q.
Proof.
  intros Hi. unfold Np.linspace.
  change (map ?f ?l) with (f <$> l).
  by rewrite list_lookup_fmap, lookup_seq_lt.
Qed.

(** A grid from [a] up to [b] is non-decreasing. *)
Lemma linspace_monotone a b m :
  (a <= b)%Q ->
  forall i j x y, i <= j ->
    Np.linspace a b m !! i = Some x -> Np.linspace a b m !! j = Some y -> (x <= y)%Q.
Proof.
  intros Hab i j x y Hij Hx Hy.
  assert (Hj : j < m) by (apply lookup_lt_Some in Hy; by rewrite linspace_length in Hy).
  rewrite linspace_lookup in Hx, Hy by lia.
  injection Hx as <-. injection Hy as <-.
  apply Qplus_le_r. apply Qmult_le_compat_r.
  - rewrite <- Zle_Qle. lia.
  - apply Qmult_le_0_compat; [lra|].
    apply Qinv_le_0_compat. change 0%Q with (inject_Z 0). rewrite <- Zle_Qle. lia.
Qed.

Lemma full_times_monotone :
  forall i j x y, i <= j ->
    full_times !! i = Some x -> full_times !! j = Some y -> (x <= y)%Q.
Proof. apply linspace_monotone. lra. Qed.

Lemma place_length aligned td : length (place aligned td) = length aligned.
Proof. unfold place. destruct (_ && _); [apply length_insert | done]. Qed.

Lemma foldl_place_length tds aligned :
  length (foldl place aligned tds) = length aligned.
Proof.
  revert aligned. induction tds as [|td tds IH]; intros aligned; [done|].
  simpl. by rewrite IH, place_length.
Qed.

Lemma place_lookup aligned td j :
  length aligned = num_steps -> j < num_steps ->
  place aligned td !! j
  = if decide (searchsorted full_times td.1 = j) then Some (Some td.2) else aligned !! j.
Proof.
  intros Hlen Hj. unfold place.
  destruct (decide (searchsorted full_times td.1 = j)) as [E|Hne].
  - rewrite E. apply Nat.ltb_lt in Hj as Hb. rewrite Hb. cbn [Nat.leb andb].
    apply list_lookup_insert_eq. by rewrite Hlen.
  - destruct (_ && _); [|done]. by apply list_lookup_insert_ne.
Qed.

(** After the loop, row [j] holds the last sample whose index is [j], and is
    untouched when there is none. *)
Lemma foldl_place_lookup tds aligned j :
  length aligned = num_steps -> j < num_steps ->
  foldl place aligned tds !! j
  = match last (filter (fun td => searchsorted full_times td.1 = j) tds) with
    | Some td => Some (Some td.2)
    | None => aligned !! j
    end.
Proof.
  intros Hlen Hj. induction tds as [|td tds IH] using rev_ind; [done|].
  rewrite foldl_app, filter_app, last_app. simpl foldl.
  rewrite place_lookup by (by rewrite ?foldl_place_length).
  rewrite filter_cons, filter_nil.
  destruct (decide (searchsorted full_times td.1 = j)); [done|]. exact IH.
Qed.

End Grid.

(** C5. The grid of [update_plot] in the socket program has [M = 200]
    points, non-decreasing, from [-10] to [0] in equal steps. For a relative
    time [t] the index computed by the binary search is the left insertion
    point: every grid point before it is below [t], every grid point from it
    on is at least [t], so it is the index of the first grid point [>= t],
    or [M] when there is none. For a non-empty window the aligned array has
    [M] rows, and row [j] holds the vector of the last sample, in snapshot
    order, whose index is [j]; a row that no sample maps to is still the
    not-a-number fill ([None]). Samples whose index is [M] are written
    nowhere. *)
Theorem grid_alignment (current_time : Q) (w : Tcp.window) :
  Tcp.data w <> [] ->
  let rel_times := map (fun t => (t - current_time)%Q) (Tcp.timestamps w) in
  let idx := fun t => Tcp.searchsorted Tcp.full_times t in
  (Tcp.num_steps = 200 /\ length Tcp.full_times = Tcp.num_steps /\
   (forall i, i < Tcp.num_steps ->
      exists g, Tcp.full_times !! i = Some g /\
                (g == - (10) + inject_Z (Z.of_nat i) * (10 / 199))%Q) /\
   (forall i j x y, i <= j ->
      Tcp.full_times !! i = Some x -> Tcp.full_times !! j = Some y -> (x <= y)%Q)) /\
  (forall t,
     idx t <= Tcp.num_steps /\
     (forall i g, i < idx t -> Tcp.full_times !! i = Some g -> (g < t)%Q) /\
     (forall i g, idx t <= i -> Tcp.full_times !! i = Some g -> (t <= g)%Q)) /\
  (exists aligned,
     Tcp.update_plot current_time w = Some aligned /\
     length aligned = Tcp.num_steps /\
     forall j, j < Tcp.num_steps ->
       aligned !! j
       = Some (snd <$> last (filter (fun td => idx td.1 = j) (zip rel_times (Tcp.data w))))).
Proof.
  intros Hne rel_times idx.
  assert (Hlen : length Tcp.full_times = Tcp.num_steps) by apply linspace_length.
  split; [|split].
  - split; [reflexivity|]. split; [exact Hlen|]. split; [|exact full_times_monotone].
    intros i Hi. eexists. split; [by apply linspace_lookup|].
    change (Z.of_nat (Tcp.num_steps - 1)) with 199%Z.
    apply Qplus_comp; [reflexivity|]. apply Qmult_comp; [reflexivity|]. reflexivity.
  - intros t.
    destruct (searchsorted_insertion_point Tcp.full_times t full_times_monotone)
      as (H1 & H2 & H3).
    rewrite Hlen in H1. done.
  - unfold Tcp.update_plot.
    destruct (Tcp.data w) as [|d ds] eqn:Hd; [done|]. simpl length. simpl Nat.eqb.
    eexists. split; [reflexivity|]. unfold Tcp.align.
    split; [by rewrite foldl_place_length, length_replicate|].
    intros j Hj. fold rel_times.
    rewrite foldl_place_lookup by (by rewrite ?length_replicate).
    fold idx. destruct (last _) as [td|]; [done|].
    by rewrite lookup_replicate_2.
Qed.

Lemma grid_alignment_witness :
  let w := {| Tcp.data := [[1%N]; [2%N]; [3%N]; [4%N]];
              Tcp.timestamps := [100; 1032 # 10; 10321 # 100; 111]%Q |} in
  exists aligned,
    Tcp.update_plot 110 w = Some aligned /\
    aligned !! 0 = Some (Some [1%N]) /\
    aligned !! 1 = Some None /\
    aligned !! 64 = Some (Some [3%N]) /\
    aligned !! 199 = Some None.
Proof.
  intros w.
  destruct (grid_alignment 110 w) as (_ & _ & aligned & E & _ & Hc); [discriminate|].
  exists aligned. split; [exact E|].
  rewrite !Hc by (vm_compute; lia).
  repeat split; vm_compute; reflexivity.
Defined.

(** ** What is persisted *)

(** C7, socket program at the failing input. Two one-float records are
    received, the first stamped (and cut off) at clock reading 0, the second
    at 20. The second push evicts the first sample because it is older than
    10 s, so [save_outputs] persists a single row, although the first sample
    is only 20 s old. The window that is saved is the one that is drawn:
    the program has no separate 60 s window. In the ring program, by
    contrast, the saved rows are the read-out of the 3000-row save buffer,
    not of the 500-row live buffer. *)
Theorem tcp_save_persists_live_window :
  (let w := Tcp.run Tcp.empty [(0, 0, [1%N]); (20, 20, [2%N])]%Q in
   Tcp.save_outputs w 1000 1 [0%Q] "Udaipur_PRL"
   = [Tcp.Fits "Udaipur_PRL.fits" [(20 - 20)%Q] 1000 1 [0%Q] [[2%N]];
      Tcp.Png "Udaipur_PRL.png" [[2%N]]]) /\
  (forall w fs n freqs base_name d ds,
     Tcp.data w = d :: ds ->
     exists time_axis,
       Tcp.save_outputs w fs n freqs base_name
       = [Tcp.Fits (base_name ++ ".fits") time_axis fs n freqs (Tcp.data w);
          Tcp.Png (base_name ++ ".png") (Tcp.data w)]) /\
  (forall (k : nat) ps fs n freqs base_name,
     let w := Inno2.pushes (Inno2.fresh k) ps in
     Np.all_zero (Inno2.save_buffer w) = false ->
     exists time_axis,
       Inno2.save_outputs w fs n freqs base_name
       = [Inno2.Fits (base_name ++ ".fits") time_axis fs n freqs (Inno2.data_60s w);
          Inno2.Png (base_name ++ ".png") (Inno2.data_60s w)] /\
       length (Inno2.data_60s w) = 3000 /\
       length (Inno2.data_to_plot w) = 500).
Proof.
  split; [vm_compute; reflexivity|]. split.
  - intros w fs n freqs base_name d ds Hd. unfold Tcp.save_outputs. rewrite Hd.
    eexists. reflexivity.
  - intros k ps fs n freqs base_name w Hnz. unfold Inno2.save_outputs. rewrite Hnz.
    eexists. split; [reflexivity|].
    pose proof (pushes_wf _ ps (fresh_wf k)) as Hw. fold w in Hw.
    destruct (wf_read_out_length w Hw) as (Ll & Ls & _).
    destruct (pushes_index _ ps (fresh_wf k)) as (_ & _ & _ & Sl & Ss & _).
    fold w in Sl, Ss. rewrite Ll, Ls, Sl, Ss. split; reflexivity.
Qed.

Lemma tcp_save_persists_live_window_witness :
  let w := Tcp.run Tcp.empty [(0, 0, [7%N]); (5, 5, [8%N])]%Q in
  exists time_axis,
    Tcp.save_outputs w 1000 1 [0%Q] "Udaipur_PRL"
    = [Tcp.Fits "Udaipur_PRL.fits" time_axis 1000 1 [0%Q] [[7%N]; [8%N]];
       Tcp.Png "Udaipur_PRL.png" [[7%N]; [8%N]]].
Proof.
  intros w.
  destruct tcp_save_persists_live_window as (_ & H & _).
  apply (H w 1000%Z 1%Z [0%Q] "Udaipur_PRL"%string [7%N] [[8%N]]).
  reflexivity.
Defined.

(** ** Session start *)

Section Start.

(** The three sizes are 500, 3000 and 1500. *)
Lemma steps_of_values :
  Inno2.steps_of Inno2.live_duration = 500 /\
  Inno2.steps_of Inno2.save_duration = 3000 /\
  Inno2.steps_of Inno2.avg_duration = 1500.
Proof. vm_compute. auto. Qed.

(** What a call that goes through leaves behind. *)
Lemma inno2_start_through np f k a :
  Inno2.goes_through np f k = true ->
  Inno2.start_observation np (Some f) (Some k) a
  = {| Inno2.fs := Some f; Inno2.n := Some k;
       Inno2.freqs := Some (Np.linspace 0 (inject_Z f / 2) (Z.to_nat k));
       Inno2.running := true;
       Inno2.steps := Some (500, 3000, 1500);
       Inno2.live := Some (Inno2.zeros 500 (Z.to_nat k));
       Inno2.save := Some (Inno2.zeros 3000 (Z.to_nat k));
       Inno2.avg := Some (Inno2.zeros 1500 (Z.to_nat k));
       Inno2.indexes := Some (0, 0, 0);
       Inno2.threads := Inno2.threads a ++ [Inno2.GenerateData; Inno2.AutoSave];
       Inno2.dialogs := Inno2.dialogs a; Inno2.uncaught := Inno2.uncaught a |}.
Proof.
  unfold Inno2.goes_through, Inno2.start_observation.
  destruct steps_of_values as (-> & -> & ->).
  rewrite !andb_true_iff, negb_true_iff.
  intros ((((((Hf & Hk) & Ho) & Hl) & H1) & H2) & H3).
  by rewrite Hf, Hk, Ho, Hl, H1, H2, H3.
Qed.

(** Only a call that goes through starts a thread. *)
Lemma inno2_start_threads np fs_int n_int a :
  Inno2.threads (Inno2.start_observation np fs_int n_int a) <> Inno2.threads a ->
  exists f k, fs_int = Some f /\ n_int = Some k /\ Inno2.goes_through np f k = true.
Proof.
  unfold Inno2.start_observation.
  destruct fs_int as [f|]; [|done]. destruct n_int as [k|]; [|done].
  destruct (0 <? f)%Z eqn:E1; [|done]. destruct (0 <? k)%Z eqn:E2; [|done]. cbn [andb].
  destruct (Py.half_raises f) eqn:E3; [done|].
  destruct (Np.linspace_returns np k) eqn:E4; [|done].
  destruct (Np.zeros_returns np (Inno2.steps_of Inno2.live_duration) k) eqn:E5; [|done].
  destruct (Np.zeros_returns np (Inno2.steps_of Inno2.save_duration) k) eqn:E6; [|done].
  destruct (Np.zeros_returns np (Inno2.steps_of Inno2.avg_duration) k) eqn:E7; [|done].
  intros _. exists f, k. split; [done|]. split; [done|].
  unfold Inno2.goes_through. by rewrite E1, E2, E3, E4, E5, E6, E7.
Qed.

Lemma tcp_start_cases np fs_int n_int port_int a :
  let a' := Tcp.start_observation np fs_int n_int port_int a in
  (exists f k p,
     fs_int = Some f /\ n_int = Some k /\ port_int = Some p /\
     Tcp.goes_through np f k = true) \/
  (Tcp.running a' = Tcp.running a /\ Tcp.threads a' = Tcp.threads a).
Proof.
  unfold Tcp.start_observation.
  destruct fs_int as [f|]; [|by right]. destruct n_int as [k|]; [|by right].
  destruct port_int as [p|]; [|by right].
  destruct (0 <? f)%Z eqn:E1; [|by right]. destruct (0 <? k)%Z eqn:E2; [|by right].
  cbn [andb].
  destruct (Py.half_raises f) eqn:E3; [by right|].
  destruct (Np.linspace_returns np k) eqn:E4; [|by right].
  left. exists f, k, p. split; [done|]. split; [done|]. split; [done|].
  unfold Tcp.goes_through. by rewrite E1, E2, E3, E4.
Qed.

Lemma tcp_start_running np fs_int n_int port_int a :
  Tcp.running a = false ->
  Tcp.running (Tcp.start_observation np fs_int n_int port_int a) = true ->
  exists f k p,
    fs_int = Some f /\ n_int = Some k /\ port_int = Some p /\
    Tcp.goes_through np f k = true.
Proof.
  intros Hoff Hon.
  destruct (tcp_start_cases np fs_int n_int port_int a) as [H|[H _]]; [done|].
  congruence.
Qed.

Lemma tcp_start_through np f k p a :
  Tcp.goes_through np f k = true ->
  Tcp.start_observation np (Some f) (Some k) (Some p) a
  = {| Tcp.fs := Some f; Tcp.n := Some k; Tcp.port := Some p;
       Tcp.freqs := Some (Np.linspace 0 (inject_Z f / 2) (Z.to_nat k));
       Tcp.running := true; Tcp.paused := false; Tcp.store := Tcp.empty;
       Tcp.threads := Tcp.threads a ++ [Tcp.ReceiveDataTcp; Tcp.AutoSave];
       Tcp.dialogs := Tcp.dialogs a; Tcp.uncaught := Tcp.uncaught a |}.
Proof.
  unfold Tcp.goes_through, Tcp.start_observation.
  rewrite !andb_true_iff, negb_true_iff.
  intros (((Hf & Hk) & Ho) & Hl). by rewrite Hf, Hk, Ho, Hl.
Qed.


Lemma tcp_goes_through_positive np f k :
  Tcp.goes_through np f k = true -> (0 < f)%Z /\ (0 < k)%Z.
Proof.
  unfold Tcp.goes_through. rewrite !andb_true_iff, !Z.ltb_lt. tauto.
Qed.

End Start.

(** The goals left by one path through [start_observation]. *)
Ltac start_cases :=
  repeat split; try done; try (by eexists);
  try (match goal with H : _ \/ _ |- _ => by destruct H end).

(** C8 as stated fails in both programs. In the socket program the port is
    only required to be an integer, so a start with port 0 (or a negative
    port) is accepted and both threads are started. A rejected start is not
    free of traces: the attributes assigned before the failing step keep
    their new values. And positive integers do not always proceed: with a
    sampling frequency of [10^400] the division [self.fs / 2] after the
    [try] block raises, no error box is shown and nothing is started; in
    the ring program, on a platform that cannot hold the second buffer, the
    call ends with the running flag set, one buffer allocated and no thread
    started. *)
Lemma start_with_non_positive_port_counterexample :
  (let a := Tcp.start_observation Np.roomy (Some 100%Z) (Some 4%Z) (Some 0%Z) Tcp.init in
   Tcp.running a = true /\
   Tcp.threads a = [Tcp.ReceiveDataTcp; Tcp.AutoSave] /\
   Tcp.port a = Some 0%Z /\ Tcp.dialogs a = []) /\
  (let a := Tcp.start_observation Np.roomy (Some 100%Z) (Some 4%Z) (Some (-5)%Z) Tcp.init in
   Tcp.running a = true /\ Tcp.threads a = [Tcp.ReceiveDataTcp; Tcp.AutoSave]) /\
  (let a := Tcp.start_observation Np.roomy (Some 100%Z) None (Some 9999%Z) Tcp.init in
   Tcp.running a = false /\ Tcp.threads a = [] /\
   Tcp.fs Tcp.init = None /\ Tcp.fs a = Some 100%Z) /\
  (forall np,
     let a := Tcp.start_observation np (Some (10 ^ 400)%Z) (Some 4%Z) (Some 9999%Z)
                Tcp.init in
     Tcp.running a = false /\ Tcp.threads a = [] /\ Tcp.dialogs a = [] /\
     Tcp.freqs a = None /\ Tcp.fs a = Some (10 ^ 400)%Z /\
     Tcp.uncaught a = [Py.OverflowError]) /\
  (let a := Inno2.start_observation Np.tight (Some 1000%Z) (Some 1000%Z) Inno2.init in
   Inno2.running a = true /\ Inno2.threads a = [] /\ Inno2.dialogs a = [] /\
   Inno2.live a = Some (Inno2.zeros 500 1000) /\ Inno2.save a = None /\
   Inno2.wins a = None /\ Inno2.uncaught a = [Py.ArrayTooLarge]).
Proof.
  split; [vm_compute; repeat split|]. split; [vm_compute; repeat split|].
  split; [vm_compute; repeat split|]. split.
  - intros np a. subst a. unfold Tcp.start_observation.
    replace (Py.half_raises (10 ^ 400)) with true by (by vm_compute).
    simpl. repeat split.
  - repeat split.
Qed.

(** C8 (as amended). [start_observation] rejects a start exactly when one
    of the conversions by [int] fails, or the sampling frequency or the bin
    count is not positive; the port of the socket program only has to be an
    integer. A rejected start shows the error box and returns: no thread is
    started, nothing is allocated, and the running flag, the buffers and the
    frequency axis are as before; the attributes converted before the
    failing step keep their new values. A start with a positive sampling
    frequency and bin count (and, in the socket program, any integer port)
    shows no error box; it sets the session up and starts both threads when
    the division [self.fs / 2] and the numpy allocations that follow the
    [try] block succeed, and only then is a thread started. When one of them
    raises, the call ends there with what was assigned before: nothing but
    [fs], [n] and [port] in the socket program and before the frequency axis
    exists in the ring program; in the ring program from the first buffer on
    the running flag is already set, the buffers allocated so far are new and
    no thread runs. *)
Theorem start_observation_validates :
  (forall np fs_int n_int port_int a,
     let a' := Tcp.start_observation np fs_int n_int port_int a in
     ((fs_int = None \/ n_int = None \/ port_int = None \/
       (exists f, fs_int = Some f /\ (f <= 0)%Z) \/
       (exists k, n_int = Some k /\ (k <= 0)%Z)) ->
      Tcp.running a' = Tcp.running a /\ Tcp.paused a' = Tcp.paused a /\
      Tcp.threads a' = Tcp.threads a /\ Tcp.store a' = Tcp.store a /\
      Tcp.freqs a' = Tcp.freqs a /\ Tcp.uncaught a' = Tcp.uncaught a /\
      Tcp.dialogs a'
      = Tcp.dialogs a ++ ["Please enter valid integers for Fs, N, and Port."%string]) /\
     (forall f k p,
        fs_int = Some f -> n_int = Some k -> port_int = Some p ->
        (0 < f)%Z -> (0 < k)%Z ->
        Tcp.fs a' = Some f /\ Tcp.n a' = Some k /\ Tcp.port a' = Some p /\
        Tcp.dialogs a' = Tcp.dialogs a /\
        (Tcp.goes_through np f k = true ->
         Tcp.running a' = true /\ Tcp.paused a' = false /\
         Tcp.threads a' = Tcp.threads a ++ [Tcp.ReceiveDataTcp; Tcp.AutoSave] /\
         Tcp.store a' = Tcp.empty /\
         Tcp.freqs a' = Some (Np.linspace 0 (inject_Z f / 2) (Z.to_nat k)) /\
         Tcp.uncaught a' = Tcp.uncaught a) /\
        (Tcp.goes_through np f k = false ->
         Tcp.running a' = Tcp.running a /\ Tcp.paused a' = Tcp.paused a /\
         Tcp.threads a' = Tcp.threads a /\ Tcp.store a' = Tcp.store a /\
         Tcp.freqs a' = Tcp.freqs a /\
         exists e, Tcp.uncaught a' = Tcp.uncaught a ++ [e])) /\
     (Tcp.threads a' <> Tcp.threads a ->
      exists f k p, fs_int = Some f /\ n_int = Some k /\ port_int = Some p /\
                    Tcp.goes_through np f k = true)) /\
  (forall np fs_int n_int a,
     let a' := Inno2.start_observation np fs_int n_int a in
     ((fs_int = None \/ n_int = None \/
       (exists f, fs_int = Some f /\ (f <= 0)%Z) \/
       (exists k, n_int = Some k /\ (k <= 0)%Z)) ->
      Inno2.running a' = Inno2.running a /\ Inno2.threads a' = Inno2.threads a /\
      Inno2.steps a' = Inno2.steps a /\ Inno2.live a' = Inno2.live a /\
      Inno2.save a' = Inno2.save a /\ Inno2.avg a' = Inno2.avg a /\
      Inno2.indexes a' = Inno2.indexes a /\
      Inno2.freqs a' = Inno2.freqs a /\ Inno2.uncaught a' = Inno2.uncaught a /\
      Inno2.dialogs a'
      = Inno2.dialogs a ++ ["Please enter positive integers for Fs and N."%string]) /\
     (forall f k,
        fs_int = Some f -> n_int = Some k -> (0 < f)%Z -> (0 < k)%Z ->
        Inno2.fs a' = Some f /\ Inno2.n a' = Some k /\
        Inno2.dialogs a' = Inno2.dialogs a /\
        (Inno2.goes_through np f k = true ->
         Inno2.running a' = true /\
         Inno2.threads a' = Inno2.threads a ++ [Inno2.GenerateData; Inno2.AutoSave] /\
         Inno2.wins a' = Some (Inno2.fresh (Z.to_nat k)) /\
         Inno2.freqs a' = Some (Np.linspace 0 (inject_Z f / 2) (Z.to_nat k)) /\
         Inno2.uncaught a' = Inno2.uncaught a) /\
        (Inno2.goes_through np f k = false ->
         Inno2.threads a' = Inno2.threads a /\ Inno2.indexes a' = Inno2.indexes a /\
         Inno2.avg a' = Inno2.avg a /\
         (exists e, Inno2.uncaught a' = Inno2.uncaught a ++ [e]) /\
         (Py.half_raises f = true \/ Np.linspace_returns np k = false ->
          Inno2.running a' = Inno2.running a /\ Inno2.freqs a' = Inno2.freqs a /\
          Inno2.steps a' = Inno2.steps a /\
          Inno2.live a' = Inno2.live a /\ Inno2.save a' = Inno2.save a) /\
         (Py.half_raises f = false -> Np.linspace_returns np k = true ->
          Inno2.running a' = true /\
          Inno2.freqs a' = Some (Np.linspace 0 (inject_Z f / 2) (Z.to_nat k)) /\
          Inno2.steps a' = Some (500, 3000, 1500) /\
          Inno2.live a'
          = (if Np.zeros_returns np 500 k then Some (Inno2.zeros 500 (Z.to_nat k))
             else Inno2.live a) /\
          Inno2.save a'
          = (if Np.zeros_returns np 500 k && Np.zeros_returns np 3000 k
             then Some (Inno2.zeros 3000 (Z.to_nat k)) else Inno2.save a)))) /\
     (Inno2.threads a' <> Inno2.threads a ->
      exists f k, fs_int = Some f /\ n_int = Some k /\
                  Inno2.goes_through np f k = true)).
Proof.
  split.
  - intros np fs_int n_int port_int a a'. split; [|split].
    + subst a'. unfold Tcp.start_observation.
      destruct fs_int as [f|]; [|done]. destruct n_int as [k|]; [|done].
      destruct port_int as [p|]; [|done].
      destruct (Z.ltb_spec 0 f) as [Hf|Hf]; destruct (Z.ltb_spec 0 k) as [Hk|Hk];
        cbn [andb]; try done.
      intros [?|[?|[?|[(f' & [= <-] & ?)|(k' & [= <-] & ?)]]]]; try done; lia.
    + intros f k p -> -> -> Hf Hk. subst a'.
      unfold Tcp.start_observation, Tcp.goes_through.
      apply Z.ltb_lt in Hf, Hk. rewrite Hf, Hk. cbn [andb].
      destruct (Py.half_raises f); cbn [negb andb]; [start_cases|].
      destruct (Np.linspace_returns np k); cbn [negb]; start_cases.
    + intros Hne.
      destruct (tcp_start_cases np fs_int n_int port_int a) as [H|[_ H]]; done.
  - intros np fs_int n_int a a'. split; [|split].
    + subst a'. unfold Inno2.start_observation.
      destruct fs_int as [f|]; [|done]. destruct n_int as [k|]; [|done].
      destruct (Z.ltb_spec 0 f) as [Hf|Hf]; destruct (Z.ltb_spec 0 k) as [Hk|Hk];
        cbn [andb]; try done.
      intros [?|[?|[(f' & [= <-] & ?)|(k' & [= <-] & ?)]]]; try done; lia.
    + intros f k -> -> Hf Hk.
      assert (Hattr : Inno2.fs a' = Some f /\ Inno2.n a' = Some k /\
                      Inno2.dialogs a' = Inno2.dialogs a).
      { subst a'. unfold Inno2.start_observation.
        apply Z.ltb_lt in Hf, Hk. rewrite Hf, Hk. cbn [andb].
        destruct (Py.half_raises f); [done|].
        destruct (Np.linspace_returns np k); [|done].
        destruct (Np.zeros_returns np _ k); [|done].
        destruct (Np.zeros_returns np _ k); [|done].
        by destruct (Np.zeros_returns np _ k). }
      destruct Hattr as (A1 & A2 & A3).
      split; [exact A1|]. split; [exact A2|]. split; [exact A3|]. split.
      * intros H. subst a'. rewrite (inno2_start_through np f k a H).
        repeat split.
      * subst a'. unfold Inno2.start_observation, Inno2.goes_through.
        destruct steps_of_values as (-> & -> & ->).
        apply Z.ltb_lt in Hf, Hk. rewrite Hf, Hk. cbn [andb].
        destruct (Py.half_raises f); cbn [negb andb]; [start_cases|].
        destruct (Np.linspace_returns np k); cbn [negb andb]; [|start_cases].
        destruct (Np.zeros_returns np 500 k); cbn [negb andb]; [|start_cases].
        destruct (Np.zeros_returns np 3000 k); cbn [negb andb]; [|start_cases].
        destruct (Np.zeros_returns np 1500 k); cbn [negb andb]; start_cases.
    + subst a'. apply inno2_start_threads.
Qed.

Lemma start_observation_validates_witness :
  (let a := Tcp.start_observation Np.roomy (Some 100%Z) (Some 0%Z) (Some 9999%Z) Tcp.init in
   Tcp.running a = false /\ Tcp.threads a = []) /\
  (let a := Inno2.start_observation Np.roomy (Some 2000%Z) (Some 256%Z) Inno2.init in
   Inno2.running a = true /\ Inno2.threads a = [Inno2.GenerateData; Inno2.AutoSave]).
Proof.
  destruct start_observation_validates as [Ht Hi]. split.
  - destruct (Ht Np.roomy (Some 100%Z) (Some 0%Z) (Some 9999%Z) Tcp.init) as [Hrej _].
    destruct Hrej as (R & _ & T & _).
    + right. right. right. right. exists 0%Z. split; [reflexivity | lia].
    + split; [exact R | exact T].
  - destruct (Hi Np.roomy (Some 2000%Z) (Some 256%Z) Inno2.init) as (_ & Hacc & _).
    destruct (Hacc 2000%Z 256%Z) as (_ & _ & _ & Hok & _);
      [reflexivity | reflexivity | lia | lia |].
    destruct Hok as (R & T & _); [reflexivity|].
    split; [exact R | exact T].
Defined.

(** ** One critical section for the three windows *)

Section Lock.

Import Inno2.

Lemma inv_boot w0 : inv w0 (boot w0).
Proof.
  split; [|split].
  - by exists [].
  - done.
  - intros t w Hin. by apply elem_of_nil in Hin.
Qed.

Lemma inv_step w0 s s' : inv w0 s -> step s s' -> inv w0 s'.
Proof.
  intros ((ps & Hpr & Hwin) & Hlock & Hseen) Hstep.
  destruct Hstep; unfold inv; simpl in *.
  (* the producer takes the lock *)
  - rewrite app_nil_r in Hpr. subst. split; [by exists ps|]. split; [done|].
    intros t w' Hin. destruct (Hseen t w' Hin) as (ps' & Hpre & ->).
    exists ps'. split; [by apply prefix_app_r | done].
  (* its six assignments *)
  - split; [exists ps; by subst | done].
  - split; [exists ps; by subst | done].
  - split; [exists ps; by subst | done].
  - split; [exists ps; by subst | done].
  - split; [exists ps; by subst | done].
  - split; [exists ps; by subst | done].
  (* the producer releases the lock *)
  - split; [|split; [done | done]].
    exists (ps ++ [x]). rewrite app_nil_r, pushes_snoc. by subst.
  (* a reader takes the lock, reads, releases *)
  - assert (p = Idle) as -> by (by apply Hlock).
    split; [by exists ps|]. split; [|done]. split; [congruence | done].
  - assert (p = Idle) as -> by (apply Hlock; congruence).
    split; [by exists ps|]. split; [done|].
    intros t' w' Hin. apply elem_of_app in Hin as [Hin|Hin]; [by apply (Hseen t' w')|].
    apply list_elem_of_singleton in Hin as [= -> ->].
    simpl in *. rewrite app_nil_r in Hpr. subst. by exists ps.
  - assert (p = Idle) as -> by (apply Hlock; congruence).
    split; [by exists ps|]. split; [done|done].
Qed.

Lemma reachable_inv w0 s : reachable w0 s -> inv w0 s.
Proof.
  induction 1 as [|s s' _ IH Hstep]; [apply inv_boot | by eapply inv_step].
Qed.

End Lock.

(** C4. One push of the ring program stores the sample at the cursor of
    each of the three buffers and advances each cursor by one (modulo the
    buffer's size). The six assignments are made while the producer holds
    the lock, and the readers look at the buffers only while they hold it.
    So in every reachable state of the producer and the readers interleaved
    in any order: whenever the producer does not hold the lock the buffers
    are those obtained by pushing every produced sample into all three
    windows; and every state a reader has seen is the result of a whole
    number [k] of pushes, the same [k] for the three windows: each cursor
    has advanced by [k] and each read-out ends with the same [k] samples. *)
Theorem windowset_push_atomic :
  (forall w x,
     Inno2.wf w ->
     Inno2.live_buffer (Inno2.push w x) !! Inno2.live_index w = Some x /\
     Inno2.save_buffer (Inno2.push w x) !! Inno2.save_index w = Some x /\
     Inno2.avg_buffer (Inno2.push w x) !! Inno2.avg_index w = Some x /\
     Inno2.live_index (Inno2.push w x) = (Inno2.live_index w + 1) mod Inno2.live_steps w /\
     Inno2.save_index (Inno2.push w x) = (Inno2.save_index w + 1) mod Inno2.save_steps w /\
     Inno2.avg_index (Inno2.push w x) = (Inno2.avg_index w + 1) mod Inno2.avg_steps w) /\
  (forall w0 s,
     Inno2.wf w0 -> Inno2.reachable w0 s ->
     (Inno2.lock s <> Some Inno2.Producer ->
      Inno2.win s = Inno2.pushes w0 (Inno2.produced s)) /\
     (forall t w, (t, w) ∈ Inno2.seen s ->
        exists ps,
          ps `prefix_of` Inno2.produced s /\ w = Inno2.pushes w0 ps /\
          Inno2.live_index w
          = (Inno2.live_index w0 + length ps) mod Inno2.live_steps w0 /\
          Inno2.save_index w
          = (Inno2.save_index w0 + length ps) mod Inno2.save_steps w0 /\
          Inno2.avg_index w
          = (Inno2.avg_index w0 + length ps) mod Inno2.avg_steps w0 /\
          Inno2.data_to_plot w = drop (length ps) (Inno2.data_to_plot w0 ++ ps) /\
          Inno2.data_60s w = drop (length ps) (Inno2.data_60s w0 ++ ps) /\
          Inno2.avg_data w = drop (length ps) (Inno2.avg_data w0 ++ ps))).
Proof.
  split.
  - intros w x [[? ?] [[? ?] [? ?]]]. simpl.
    repeat split; try done; apply list_lookup_insert_eq; lia.
  - intros w0 s Hw0 Hreach.
    destruct (reachable_inv w0 s Hreach) as ((ps & Hpr & Hwin) & Hlock & Hseen).
    split.
    + intros Hl. apply Hlock in Hl. rewrite Hl in Hpr, Hwin. simpl in Hpr, Hwin.
      by rewrite Hwin, Hpr, app_nil_r.
    + intros t w Hin. destruct (Hseen t w Hin) as (ps' & Hpre & ->).
      exists ps'. split; [done|]. split; [done|].
      destruct (pushes_index w0 ps' Hw0) as (I1 & I2 & I3 & _).
      destruct (pushes_read_out w0 ps' Hw0) as (R1 & R2 & R3).
      done.
Qed.

Lemma windowset_push_atomic_witness :
  let w0 := Inno2.alloc 2 3 2 1 in
  let x : Inno2.row := [5%Q] in
  let w1 := Inno2.push w0 x in
  let s := Inno2.Build_sys (Some Inno2.Render) Inno2.Idle w1 [x] [(Inno2.Render, w1)] in
  Inno2.reachable w0 s /\
  exists ps,
    w1 = Inno2.pushes w0 ps /\
    Inno2.live_index w1 = (0 + length ps) mod 2 /\
    Inno2.save_index w1 = (0 + length ps) mod 3 /\
    Inno2.avg_index w1 = (0 + length ps) mod 2.
Proof.
  intros w0 x w1 s.
  assert (Hs : Inno2.reachable w0 s).
  { pose proof (Inno2.reach_boot w0) as R.
    pose proof (Inno2.reach_step _ _ _ R (Inno2.p_acquire x w0 [] [])) as R1.
    pose proof (Inno2.reach_step _ _ _ R1 (Inno2.p_write_live x _ _ _)) as R2.
    pose proof (Inno2.reach_step _ _ _ R2 (Inno2.p_advance_live x _ _ _)) as R3.
    pose proof (Inno2.reach_step _ _ _ R3 (Inno2.p_write_save x _ _ _)) as R4.
    pose proof (Inno2.reach_step _ _ _ R4 (Inno2.p_advance_save x _ _ _)) as R5.
    pose proof (Inno2.reach_step _ _ _ R5 (Inno2.p_write_avg x _ _ _)) as R6.
    pose proof (Inno2.reach_step _ _ _ R6 (Inno2.p_advance_avg x _ _ _)) as R7.
    pose proof (Inno2.reach_step _ _ _ R7 (Inno2.p_release x _ _ _)) as R8.
    assert (Hr : Inno2.Render <> Inno2.Producer) by discriminate.
    pose proof (Inno2.reach_step _ _ _ R8 (Inno2.r_acquire Inno2.Render _ _ _ _ Hr)) as R9.
    exact (Inno2.reach_step _ _ _ R9 (Inno2.r_read Inno2.Render _ _ _ _ Hr)). }
  split; [exact Hs|].
  destruct windowset_push_atomic as [_ H].
  destruct (H w0 s (alloc_wf 2 3 2 1 ltac:(lia) ltac:(lia) ltac:(lia)) Hs) as [_ Hseen].
  destruct (Hseen Inno2.Render w1) as (ps & _ & E & I1 & I2 & I3 & _).
  - apply list_elem_of_singleton. reflexivity.
  - exists ps. repeat split; assumption.
Defined.

(** * Further properties of the two programs *)

(** ** The ring buffers between pushes *)

(** X1. One push of [generate_data] slides every read-out by one row: the
    oldest row leaves, the new sample becomes the last row, and the number
    of rows does not change. *)
Theorem ring_push_slides (w : Inno2.windows) (x : Inno2.row) :
  Inno2.wf w ->
  (Inno2.data_to_plot (Inno2.push w x) = drop 1 (Inno2.data_to_plot w) ++ [x] /\
   Inno2.data_60s (Inno2.push w x) = drop 1 (Inno2.data_60s w) ++ [x] /\
   Inno2.avg_data (Inno2.push w x) = drop 1 (Inno2.avg_data w) ++ [x]) /\
  (last (Inno2.data_to_plot (Inno2.push w x)) = Some x /\
   last (Inno2.data_60s (Inno2.push w x)) = Some x /\
   last (Inno2.avg_data (Inno2.push w x)) = Some x) /\
  (length (Inno2.data_to_plot (Inno2.push w x)) = length (Inno2.data_to_plot w) /\
   length (Inno2.data_60s (Inno2.push w x)) = length (Inno2.data_60s w) /\
   length (Inno2.avg_data (Inno2.push w x)) = length (Inno2.avg_data w)).
Proof.
  intros Hw.
  destruct (push_read_out w x Hw) as (E1 & E2 & E3).
  destruct (wf_read_out_length w Hw) as (L1 & L2 & L3).
  destruct (wf_read_out_length _ (push_wf w x Hw)) as (M1 & M2 & M3).
  split; [done|]. split.
  - rewrite E1, E2, E3, !last_snoc. done.
  - rewrite L1, L2, L3, M1, M2, M3. done.
Qed.

Lemma ring_push_slides_witness :
  let w := Inno2.pushes (Inno2.alloc 2 3 2 1) [[1%Q]; [2%Q]] in
  Inno2.data_to_plot (Inno2.push w [3%Q]) = [[2%Q]; [3%Q]] /\
  Inno2.data_60s (Inno2.push w [3%Q]) = [[1%Q]; [2%Q]; [3%Q]].
Proof.
  intros w.
  assert (Hw : Inno2.wf w) by (apply pushes_wf, alloc_wf; lia).
  destruct (ring_push_slides w [3%Q] Hw) as ((E1 & E2 & _) & _).
  rewrite E1, E2. split; reflexivity.
Defined.

(** X2. Whatever has been pushed since [start_observation], the three
    buffers keep their 500, 3000 and 1500 rows, each cursor stays inside its
    buffer, and each read-out is a rearrangement of its buffer: no row is
    lost or repeated by the reordering. *)
Theorem ring_shape_invariant (n : nat) (ps : list Inno2.row) :
  let w := Inno2.pushes (Inno2.fresh n) ps in
  (length (Inno2.live_buffer w) = 500 /\ Inno2.live_index w < 500 /\
   length (Inno2.data_to_plot w) = 500 /\
   Inno2.data_to_plot w ≡ₚ Inno2.live_buffer w) /\
  (length (Inno2.save_buffer w) = 3000 /\ Inno2.save_index w < 3000 /\
   length (Inno2.data_60s w) = 3000 /\
   Inno2.data_60s w ≡ₚ Inno2.save_buffer w) /\
  (length (Inno2.avg_buffer w) = 1500 /\ Inno2.avg_index w < 1500 /\
   length (Inno2.avg_data w) = 1500 /\
   Inno2.avg_data w ≡ₚ Inno2.avg_buffer w).
Proof.
  intros w.
  pose proof (pushes_wf _ ps (fresh_wf n)) as Hw. fold w in Hw.
  destruct (pushes_index _ ps (fresh_wf n)) as (_ & _ & _ & S1 & S2 & S3 & _).
  fold w in S1, S2, S3.
  change (Inno2.live_steps (Inno2.fresh n)) with 500 in S1.
  change (Inno2.save_steps (Inno2.fresh n)) with 3000 in S2.
  change (Inno2.avg_steps (Inno2.fresh n)) with 1500 in S3.
  destruct (wf_read_out_length w Hw) as (L1 & L2 & L3).
  destruct Hw as [[B1 I1] [[B2 I2] [B3 I3]]].
  rewrite S1 in *. rewrite S2 in *. rewrite S3 in *.
  assert (Hperm : forall buf idx, Inno2.chronological buf idx ≡ₚ buf).
  { intros buf idx. rewrite chronological_unfold.
    rewrite Permutation_app_comm. by rewrite take_drop. }
  repeat split; try done; apply Hperm.
Qed.

Lemma drop_padding {A} (a k : nat) (z : A) (l : list A) :
  drop a (drop k (replicate a z ++ l)) = drop k l.
Proof.
  rewrite drop_drop, Nat.add_comm, <- drop_drop.
  by rewrite drop_app_length' by (by rewrite length_replicate).
Qed.

(** X3. The three windows always hold the same stream: what the plot shows
    is the last 500 rows of the averaging window and of the saved window,
    and the averaging window is the last 1500 rows of the saved one. *)
Theorem ring_windows_nested (n : nat) (ps : list Inno2.row) :
  let w := Inno2.pushes (Inno2.fresh n) ps in
  Inno2.data_to_plot w = drop 1000 (Inno2.avg_data w) /\
  Inno2.avg_data w = drop 1500 (Inno2.data_60s w) /\
  Inno2.data_to_plot w = drop 2500 (Inno2.data_60s w).
Proof.
  intros w.
  destruct (pushes_read_out _ ps (fresh_wf n)) as (R1 & R2 & R3).
  fold w in R1, R2, R3.
  change (Inno2.data_to_plot (Inno2.fresh n)) with (replicate 500 (replicate n 0%Q)) in R1.
  change (Inno2.data_60s (Inno2.fresh n)) with (replicate 3000 (replicate n 0%Q)) in R2.
  change (Inno2.avg_data (Inno2.fresh n)) with (replicate 1500 (replicate n 0%Q)) in R3.
  rewrite R1, R2, R3.
  change 1500 with (1000 + 500) at 1.
  change 3000 with (1500 + 1500) at 1.
  change 3000 with (2500 + 500).
  rewrite !replicate_add, <- !app_assoc, !drop_padding. done.
Qed.

(** ** The axes *)

Section Axes.

Lemma linspace_first a b m :
  0 < m -> exists x0, Np.linspace a b m !! 0 = Some x0 /\ (x0 == a)%Q.
Proof.
  intros Hm. eexists. split; [by apply linspace_lookup|].
  simpl. ring.
Qed.

Lemma linspace_last a b m :
  1 < m -> exists xl, last (Np.linspace a b m) = Some xl /\ (xl == b)%Q.
Proof.
  intros Hm. rewrite last_lookup, linspace_length.
  replace (Init.Nat.pred m) with (m - 1) by lia.
  eexists. split; [apply linspace_lookup; lia|].
  assert (Hd : ~ (inject_Z (Z.of_nat (m - 1)) == 0)%Q).
  { change 0%Q with (inject_Z 0). rewrite inject_Z_injective. lia. }
  field. exact Hd.
Qed.


End Axes.



(** X5. When [save_outputs] of the ring program writes, it writes exactly a
    FITS file and a PNG file named after the same base. The data are the
    3000-row read-out of the save buffer, whose last row is the sample
    pushed last, and the time axis has as many entries as the data has rows,
    running from -60 up to 0, however few samples were pushed. *)
Theorem ring_saved_file (n : nat) (ps : list Inno2.row) fs nfft freqs base_name :
  let w := Inno2.pushes (Inno2.fresh n) ps in
  Np.all_zero (Inno2.save_buffer w) = false ->
  exists time_axis data,
    Inno2.save_outputs w fs nfft freqs base_name
    = [Inno2.Fits (base_name ++ ".fits") time_axis fs nfft freqs data;
       Inno2.Png (base_name ++ ".png") data] /\
    data = Inno2.data_60s w /\
    length data = 3000 /\ length time_axis = length data /\
    last data = last ps /\ ps <> [] /\
    (exists t0, time_axis !! 0 = Some t0 /\ (t0 == - (60))%Q) /\
    (exists tl, last time_axis = Some tl /\ (tl == 0)%Q) /\
    (forall i j x y, i <= j ->
       time_axis !! i = Some x -> time_axis !! j = Some y -> (x <= y)%Q).
Proof.
  intros w Hnz.
  destruct (pushes_index _ ps (fresh_wf n)) as (_ & _ & _ & _ & Ss & _).
  fold w in Ss. change (Inno2.save_steps (Inno2.fresh n)) with 3000 in Ss.
  destruct (pushes_read_out _ ps (fresh_wf n)) as (_ & R & _). fold w in R.
  change (Inno2.data_60s (Inno2.fresh n)) with (replicate 3000 (replicate n 0%Q)) in R.
  assert (Hne : ps <> []).
  { intros ->. subst w.
    change (Np.all_zero (Inno2.zeros 3000 n) = false) in Hnz.
    by rewrite all_zero_zeros in Hnz. }
  unfold Inno2.save_outputs. rewrite Hnz, Ss.
  eexists _, _. split; [reflexivity|]. split; [reflexivity|].
  assert (Hlen : length (Inno2.data_60s w) = 3000).
  { rewrite R, length_drop, length_app, length_replicate. lia. }
  split; [exact Hlen|]. split; [by rewrite linspace_length, Hlen|].
  split.
  { rewrite R. destruct (exists_last Hne) as (ps' & x & ->).
    rewrite app_assoc, drop_app_le, !last_snoc; [done|].
    rewrite !length_app, length_replicate. simpl. lia. }
  split; [done|].
  split; [apply linspace_first; lia|].
  split; [apply linspace_last; lia|].
  apply linspace_monotone. unfold Inno2.save_duration. lra.
Qed.

Lemma ring_saved_file_witness :
  let w := Inno2.pushes (Inno2.fresh 2) [[1; 2]%Q; [3; 4]%Q] in
  exists time_axis data,
    Inno2.save_outputs w 1000 2 [0; 500]%Q "Udaipur_PRL"
    = [Inno2.Fits "Udaipur_PRL.fits" time_axis 1000 2 [0; 500]%Q data;
       Inno2.Png "Udaipur_PRL.png" data] /\
    length time_axis = 3000 /\ last data = Some [3; 4]%Q.
Proof.
  intros w.
  destruct (ring_saved_file 2 [[1; 2]%Q; [3; 4]%Q] 1000%Z 2%Z [0; 500]%Q "Udaipur_PRL"%string)
    as (t & d & E & _ & Ld & Lt & Hl & _).
  - vm_compute. reflexivity.
  - exists t, d. split; [exact E|]. split; [by rewrite Lt, Ld | exact Hl].
Defined.

(** ** The mean spectrum and its peak *)

Section Band.

Import Inno2.

Lemma session_rows (n : nat) (ps : list row) :
  Forall (fun r => length r = n) ps ->
  let w := pushes (fresh n) ps in
  cols w = n /\
  Forall (fun r => length r = n) (data_to_plot w) /\
  Forall (fun r => length r = n) (data_60s w) /\
  Forall (fun r => length r = n) (avg_data w).
Proof.
  intros Hps w.
  destruct (pushes_index _ ps (fresh_wf n)) as (_ & _ & _ & _ & _ & _ & Hc).
  destruct (pushes_shape (fun r => length r = n) (fresh n) ps Hps
              (alloc_shape (steps_of live_duration) (steps_of save_duration)
                           (steps_of avg_duration) n)) as (H1 & H2 & H3).
  split; [exact Hc|]. repeat split; by apply chronological_Forall.
Qed.


(** Column sums of rows whose entries lie in [0, 100). *)
Lemma column_sum_bounds (j : nat) (a : list row) :
  Forall (fun r => (0 <= nth j r 0 < 100)%Q) a ->
  (0 <= foldr (fun r acc => (nth j r 0 + acc)%Q) 0%Q a)%Q /\
  (foldr (fun r acc => (nth j r 0 + acc)%Q) 0%Q a
   <= 100 * inject_Z (Z.of_nat (length a)))%Q /\
  (a <> [] ->
   (foldr (fun r acc => (nth j r 0 + acc)%Q) 0%Q a
    < 100 * inject_Z (Z.of_nat (length a)))%Q).
Proof.
  induction 1 as [|r a [Hlo Hhi] _ (IH1 & IH2 & IH3)].
  - simpl. split; [lra|]. split; [by vm_compute | done].
  - cbn [foldr length]. rewrite Nat2Z.inj_succ. unfold Z.succ. rewrite inject_Z_plus.
    change (inject_Z 1) with 1%Q.
    split; [lra|]. split; [lra|]. intros _. lra.
Qed.

End Band.



(** X7. The synthetic source draws every magnitude from [0, 100). If every
    pushed value is in that range, so is every value of the three read-outs
    (the rows not yet written are zero), and so is every entry of the exact
    column-wise mean of the averaging read-out, which is the mean spectrum of
    [update_plot] apart from its rounding. *)
Theorem ring_values_in_range (n : nat) (ps : list Inno2.row) :
  Forall (fun r => length r = n) ps ->
  Forall (Forall (fun v => (0 <= v < 100)%Q)) ps ->
  let w := Inno2.pushes (Inno2.fresh n) ps in
  Forall (Forall (fun v => (0 <= v < 100)%Q)) (Inno2.data_to_plot w) /\
  Forall (Forall (fun v => (0 <= v < 100)%Q)) (Inno2.data_60s w) /\
  Forall (Forall (fun v => (0 <= v < 100)%Q)) (Inno2.avg_data w) /\
  Forall (fun y => (0 <= y < 100)%Q) (Np.mean_axis0 (Inno2.cols w) (Inno2.avg_data w)).
Proof.
  intros Hlen Hps w.
  assert (H0 : Forall (Forall (fun v => (0 <= v < 100)%Q)) (Inno2.live_buffer (Inno2.fresh n)) /\
               Forall (Forall (fun v => (0 <= v < 100)%Q)) (Inno2.save_buffer (Inno2.fresh n)) /\
               Forall (Forall (fun v => (0 <= v < 100)%Q)) (Inno2.avg_buffer (Inno2.fresh n))).
  { repeat split; apply Forall_replicate, Forall_replicate; lra. }
  destruct (pushes_shape _ _ ps Hps H0) as (H1 & H2 & H3). fold w in H1, H2, H3.
  assert (Ha : Forall (Forall (fun v => (0 <= v < 100)%Q)) (Inno2.avg_data w))
    by (by apply chronological_Forall).
  split; [by apply chronological_Forall|].
  split; [by apply chronological_Forall|].
  split; [exact Ha|].
  destruct (session_rows n ps Hlen) as (Hc & _ & _ & Hrows). fold w in Hc, Hrows.
  rewrite Hc. apply Forall_lookup. intros j y Hy.
  assert (Hj : j < n).
  { apply lookup_lt_Some in Hy. by rewrite mean_axis0_length in Hy. }
  rewrite mean_axis0_lookup in Hy by done. injection Hy as <-.
  assert (Hrows1500 : @length (list Q) (Inno2.avg_data w) = 1500).
  { destruct (wf_read_out_length w (pushes_wf _ ps (fresh_wf n))) as (_ & _ & L).
    destruct (pushes_index _ ps (fresh_wf n)) as (_ & _ & _ & _ & _ & S3 & _).
    fold w in S3. etransitivity; [exact L | exact S3]. }
  destruct (column_sum_bounds j (Inno2.avg_data w)) as (B1 & _ & B3).
  { apply Forall_forall. intros r Hr.
    rewrite Forall_forall in Ha, Hrows.
    specialize (Ha r Hr). specialize (Hrows r Hr).
    destruct (lookup_lt_is_Some_2 r j) as [v Hv]; [lia|].
    rewrite (nth_lookup_Some _ _ _ _ Hv).
    rewrite Forall_lookup in Ha. by eapply Ha. }
  specialize (B3 ltac:(intros E; rewrite E in Hrows1500; simpl in Hrows1500; lia)).
  assert (Hrows' : @length Inno2.row (Inno2.avg_data w) = 1500) by exact Hrows1500.
  rewrite Hrows' in B3. rewrite Hrows1500.
  change (inject_Z (Z.of_nat 1500)) with 1500%Q in *.
  split.
  - apply Qle_shift_div_l; lra.
  - apply Qlt_shift_div_r; lra.
Qed.

Lemma ring_values_in_range_witness :
  let w := Inno2.pushes (Inno2.fresh 2) [[10; 99]%Q; [0; 50]%Q] in
  Forall (fun y => (0 <= y < 100)%Q) (Np.mean_axis0 (Inno2.cols w) (Inno2.avg_data w)).
Proof.
  intros w.
  apply (ring_values_in_range 2 [[10; 99]%Q; [0; 50]%Q]).
  - repeat constructor.
  - repeat constructor; vm_compute; congruence.
Defined.

(** ** Eviction in the socket program *)

Section Eviction.

Import Tcp.

Lemma filter_fresh_id (c : Q) (ts : list Q) :
  Forall (fun t => (c <= t)%Q) ts -> List.filter (fun t => Qle_bool c t) ts = ts.
Proof.
  induction 1 as [|t ts Ht _ IH]; [done|].
  simpl. apply Qle_bool_iff in Ht. by rewrite Ht, IH.
Qed.

(** On a sorted list the loop removes exactly the entries below the
    cut-off, from both lists. *)
Lemma evict_filter (c : Q) (ts : list Q) (d : list sample) :
  StronglySorted Qle ts -> length d = length ts ->
  timestamps (evict c ts d) = List.filter (fun t => Qle_bool c t) ts /\
  zip (timestamps (evict c ts d)) (data (evict c ts d))
  = List.filter (fun p => Qle_bool c p.1) (zip ts d).
Proof.
  intros Hs. revert d. induction Hs as [|t ts Hs IH Hall]; intros d Hd.
  - destruct d; [done | simpl in Hd; lia].
  - destruct d as [|x d]; [simpl in Hd; lia|].
    simpl. unfold Np.Qltb. destruct (Qle_bool c t) eqn:Hc; simpl.
    + apply Qle_bool_iff in Hc.
      assert (Hfresh : Forall (fun t' => (c <= t')%Q) ts).
      { eapply Forall_impl; [exact Hall|]. intros y Hy. simpl in Hy.
        eapply Qle_trans; [exact Hc | exact Hy]. }
      rewrite (filter_fresh_id c ts Hfresh). split; [done|]. f_equal.
      symmetry. apply forallb_filter_id, forallb_forall. intros [t' x'] Hin.
      apply list_elem_of_In, elem_of_zip_l in Hin. simpl.
      apply Qle_bool_iff. rewrite Forall_forall in Hfresh. by apply Hfresh.
    + apply IH. simpl in Hd. lia.
Qed.

(** The entry just appended is never evicted when it is not older than the
    cut-off, whatever is in front of it. *)
Lemma evict_keeps_last (c ta : Q) (x : sample) (ts : list Q) (d : list sample) :
  (c <= ta)%Q -> length d = length ts ->
  exists k, k <= length ts /\
    timestamps (evict c (ts ++ [ta]) (d ++ [x])) = drop k ts ++ [ta] /\
    data (evict c (ts ++ [ta]) (d ++ [x])) = drop k d ++ [x].
Proof.
  intros Hc. revert d. induction ts as [|t ts IH]; intros d Hd.
  - destruct d; [|simpl in Hd; lia]. exists 0. simpl.
    apply Qltb_ge in Hc. rewrite Hc. done.
  - destruct d as [|y d]; [simpl in Hd; lia|]. simpl.
    destruct (Np.Qltb t c).
    + destruct (IH d) as (k & Hk & E1 & E2); [simpl in Hd; lia|].
      exists (S k). simpl. split; [lia | done].
    + exists 0. simpl. split; [lia | done].
Qed.

(** Entries that are all older than the cut-off are all evicted. *)
Lemma evict_all_stale (c : Q) (ts : list Q) (d : list sample) :
  Forall (fun t => (t < c)%Q) ts -> length d = length ts ->
  evict c ts d = empty.
Proof.
  intros Hs. revert d. induction Hs as [|t ts Ht _ IH]; intros d Hd.
  - by destruct d.
  - destruct d as [|y d]; [simpl in Hd; lia|]. simpl.
    apply Qltb_lt in Ht. rewrite Ht. apply IH. simpl in Hd. lia.
Qed.

End Eviction.

(** X8. When the time stamps, the new one included, are in non-decreasing
    order, a push of the socket program leaves exactly the entries that are
    not older than [now - 10]: none of those is removed, none older stays,
    and every remaining time stamp is still paired with its own sample. *)
Theorem deque_push_is_filter (t_append now : Q) (x : Tcp.sample) (w : Tcp.window) :
  StronglySorted Qle (Tcp.timestamps w ++ [t_append]) ->
  length (Tcp.data w) = length (Tcp.timestamps w) ->
  let w' := Tcp.push t_append now x w in
  Tcp.timestamps w'
  = List.filter (fun t => Qle_bool (now - 10) t) (Tcp.timestamps w ++ [t_append]) /\
  zip (Tcp.timestamps w') (Tcp.data w')
  = List.filter (fun p => Qle_bool (now - 10) p.1)
      (zip (Tcp.timestamps w ++ [t_append]) (Tcp.data w ++ [x])).
Proof.
  intros Hs Hl. apply evict_filter; [done|].
  rewrite !length_app. simpl. lia.
Qed.

Lemma deque_push_is_filter_witness :
  let w := {| Tcp.data := [[1%N]; [2%N]; [3%N]]; Tcp.timestamps := [1; 4; 9]%Q |} in
  Tcp.timestamps (Tcp.push 12 13 [4%N] w) = [4; 9; 12]%Q.
Proof.
  intros w.
  destruct (deque_push_is_filter 12 13 [4%N] w) as [E _].
  - simpl. repeat (constructor; [|repeat constructor; by vm_compute]). constructor.
  - reflexivity.
  - rewrite E. reflexivity.
Defined.

(** X9. The sample just received survives its own push whenever the second
    clock reading is at most 10 s after the first: it is then the last entry
    of both lists, so the window is not empty. If the clock jumps by more
    than 10 s between the two readings and nothing newer is stored, the push
    empties the window. *)
Theorem deque_push_newest (t_append now : Q) (x : Tcp.sample) (w : Tcp.window) :
  length (Tcp.data w) = length (Tcp.timestamps w) ->
  let w' := Tcp.push t_append now x w in
  ((now - 10 <= t_append)%Q ->
   last (Tcp.timestamps w') = Some t_append /\ last (Tcp.data w') = Some x /\
   length (Tcp.data w') = length (Tcp.timestamps w')) /\
  ((t_append < now - 10)%Q ->
   Forall (fun t => (t <= t_append)%Q) (Tcp.timestamps w) ->
   w' = Tcp.empty).
Proof.
  intros Hl w'. split.
  - intros Hc. subst w'. unfold Tcp.push.
    destruct (evict_keeps_last (now - 10) t_append x _ _ Hc Hl) as (k & Hk & -> & ->).
    rewrite !last_snoc, !length_app, !length_drop. simpl. split; [done|]. split; [done|lia].
  - intros Hc Hall. subst w'. unfold Tcp.push. apply evict_all_stale.
    + apply Forall_app. split.
      * eapply Forall_impl; [exact Hall|]. intros t Ht. simpl in Ht.
        eapply Qle_lt_trans; [exact Ht | exact Hc].
      * by repeat constructor.
    + rewrite !length_app. simpl. lia.
Qed.

Lemma deque_push_newest_witness :
  let w := {| Tcp.data := [[1%N]]; Tcp.timestamps := [0%Q] |} in
  last (Tcp.data (Tcp.push 30 31 [2%N] w)) = Some [2%N] /\
  Tcp.push 30 45 [2%N] w = Tcp.empty.
Proof.
  intros w. split.
  - destruct (deque_push_newest 30 31 [2%N] w eq_refl) as [H _].
    apply H. vm_compute. congruence.
  - destruct (deque_push_newest 30 45 [2%N] w eq_refl) as [_ H].
    apply H; [reflexivity|]. repeat constructor. vm_compute. congruence.
Defined.

Lemma last_drop_lt {A} (k : nat) (l : list A) :
  k < length l -> last (drop k l) = last l.
Proof.
  intros Hk. rewrite <- (take_drop k l) at 2. rewrite last_app.
  destruct (last (drop k l)) eqn:E; [done|].
  apply last_None in E. apply (f_equal length) in E.
  rewrite length_drop in E. simpl in E. lia.
Qed.

(** X10. What [save_outputs] of the socket program writes for a non-empty
    window filled by pushes with non-decreasing time stamps (the clock not
    going back between the two readings of a push): a FITS and a PNG file
    holding the window, with a time axis of one entry per stored sample,
    relative to the newest sample. The axis is non-decreasing, ends at 0 and
    never reaches further back than 10 s. *)
Theorem tcp_saved_time_axis (ps : list (Q * Q * Tcp.sample)) fs nfft freqs base_name :
  StronglySorted Qle (map (fun p => p.1.1) ps) ->
  Forall (fun p => (p.1.1 <= p.1.2)%Q) ps ->
  let w := Tcp.run Tcp.empty ps in
  Tcp.data w <> [] ->
  exists time_axis,
    Tcp.save_outputs w fs nfft freqs base_name
    = [Tcp.Fits (base_name ++ ".fits") time_axis fs nfft freqs (Tcp.data w);
       Tcp.Png (base_name ++ ".png") (Tcp.data w)] /\
    length time_axis = length (Tcp.data w) /\
    Forall (fun r => (- (10) <= r <= 0)%Q) time_axis /\
    (exists rl, last time_axis = Some rl /\ (rl == 0)%Q) /\
    StronglySorted Qle time_axis.
Proof.
  intros Hsorted Hclock w Hne.
  destruct (run_invariants ps Hsorted) as (Hs & Hl & (k & Ht & Hd) & Hb).
  fold w in Hs, Hl, Ht, Hd, Hb.
  assert (Hk : k < length ps).
  { destruct (decide (k < length ps)); [done|]. exfalso. apply Hne.
    rewrite Hd. apply drop_ge. rewrite length_map. lia. }
  destruct (last ps) as [[[ta now] x]|] eqn:Hlast.
  2:{ apply last_None in Hlast. subst ps. simpl in Hk. lia. }
  assert (Hlt : last (Tcp.timestamps w) = Some ta).
  { rewrite Ht, last_drop_lt by (by rewrite length_map).
    change (map ?f ?l) with (f <$> l). by rewrite fmap_last, Hlast. }
  assert (Hta : (ta <= now)%Q).
  { apply last_Some in Hlast as [ps' ->]. apply Forall_app in Hclock as [_ Hc].
    rewrite Forall_singleton in Hc. exact Hc. }
  specialize (Hb ta now x eq_refl).
  apply last_Some in Hlt as [ts' Hts'].
  unfold Tcp.save_outputs. destruct (Tcp.data w) as [|d ds] eqn:Hdata; [done|].
  rewrite Hts', last_last. rewrite <- Hts'.
  eexists. split; [reflexivity|].
  split; [by rewrite length_map|]. split; [|split].
  - apply Forall_forall. intros r Hr.
    apply list_elem_of_In, in_map_iff in Hr as (t & <- & Hin).
    apply list_elem_of_In in Hin.
    assert (Htle : (t <= ta)%Q).
    { rewrite Hts' in Hin, Hs. apply elem_of_app in Hin as [Hin|Hin].
      - eapply (StronglySorted_app_1_elem_of Qle ts' [ta]); [done | done |].
        by apply list_elem_of_singleton.
      - apply list_elem_of_singleton in Hin as ->. apply Qle_refl. }
    rewrite Forall_forall in Hb. specialize (Hb t Hin). lra.
  - exists (ta - ta)%Q. split; [|ring].
    change (map ?f ?l) with (f <$> l). by rewrite fmap_last, Hts', last_snoc.
  - change (map ?f ?l) with (f <$> l).
    apply (StronglySorted_fmap _ Qle Qle); [|done]. intros y z Hyz. lra.
Qed.

Lemma tcp_saved_time_axis_witness :
  let ps : list (Q * Q * Tcp.sample) := [(0, 0, [1%N]); (3, 3, [2%N]); (11, 12, [3%N])]%Q in
  exists time_axis,
    Tcp.save_outputs (Tcp.run Tcp.empty ps) 1000 1 [0%Q] "Udaipur_PRL"
    = [Tcp.Fits "Udaipur_PRL.fits" time_axis 1000 1 [0%Q] [[2%N]; [3%N]];
       Tcp.Png "Udaipur_PRL.png" [[2%N]; [3%N]]] /\
    Forall (fun r => (- (10) <= r <= 0)%Q) time_axis.
Proof.
  intros ps.
  destruct (tcp_saved_time_axis ps 1000%Z 1%Z [0%Q] "Udaipur_PRL"%string)
    as (t & E & _ & B & _).
  - simpl. repeat (constructor; [|repeat constructor; by vm_compute]). constructor.
  - repeat constructor; by vm_compute.
  - discriminate.
  - exists t. split; [exact E | exact B].
Defined.

(** ** Where samples land on the grid *)

Section GridIndex.

Import Tcp.

Lemma linspace_strict a b m i j x y :
  (a < b)%Q -> i < j ->
  Np.linspace a b m !! i = Some x -> Np.linspace a b m !! j = Some y -> (x < y)%Q.
Proof.
  intros Hab Hij Hx Hy.
  assert (Hj : j < m) by (apply lookup_lt_Some in Hy; by rewrite linspace_length in Hy).
  rewrite linspace_lookup in Hx, Hy by lia.
  injection Hx as <-. injection Hy as <-.
  apply Qplus_lt_r. apply Qmult_lt_compat_r.
  - apply Qlt_shift_div_l; [|lra].
    change 0%Q with (inject_Z 0). rewrite <- Zlt_Qlt. lia.
  - rewrite <- Zlt_Qlt. lia.
Qed.

Lemma full_times_strict i j x y :
  i < j -> full_times !! i = Some x -> full_times !! j = Some y -> (x < y)%Q.
Proof. apply linspace_strict. lra. Qed.

Lemma full_times_ends :
  (exists g0, full_times !! 0 = Some g0 /\ (g0 == - (10))%Q) /\
  (exists gl, full_times !! 199 = Some gl /\ (gl == 0)%Q).
Proof.
  split.
  - apply linspace_first. vm_compute. lia.
  - destruct (linspace_last (- (10)) 0 num_steps) as (gl & Hl & El); [vm_compute; lia|].
    exists gl. split; [|done]. rewrite last_lookup, linspace_length in Hl. exact Hl.
Qed.

Lemma grid_index_monotone (t1 t2 : Q) :
  (t1 <= t2)%Q -> searchsorted full_times t1 <= searchsorted full_times t2.
Proof.
  intros Ht.
  assert (Hlen : length full_times = 200) by apply linspace_length.
  destruct (searchsorted_insertion_point full_times t1 full_times_monotone) as (H1 & H2 & _).
  destruct (searchsorted_insertion_point full_times t2 full_times_monotone) as (_ & _ & H3).
  destruct (decide (searchsorted full_times t1 <= searchsorted full_times t2)) as [|Hne];
    [done|].
  destruct (lookup_lt_is_Some_2 full_times (searchsorted full_times t2)) as [g Hg]; [lia|].
  specialize (H2 (searchsorted full_times t2) g ltac:(lia) Hg).
  specialize (H3 (searchsorted full_times t2) g ltac:(lia) Hg). lra.
Qed.

End GridIndex.

(** X11. The cell that [update_plot] of the socket program computes for a
    relative time [t]: a sample 10 s old or older goes to cell 0, a sample
    with a positive relative time gets index 200 and is not drawn, any other
    sample goes to a cell from 1 to 199. The cell never decreases when [t]
    grows, and a sample exactly on a grid point goes to the cell of that
    point. *)
Theorem grid_index_properties :
  let idx := fun t => Tcp.searchsorted Tcp.full_times t in
  (forall t, (t <= - (10))%Q -> idx t = 0) /\
  (forall t, (0 < t)%Q -> idx t = 200) /\
  (forall t, (- (10) < t)%Q -> (t <= 0)%Q -> 1 <= idx t <= 199) /\
  (forall t1 t2, (t1 <= t2)%Q -> idx t1 <= idx t2) /\
  (forall j g, Tcp.full_times !! j = Some g -> idx g = j).
Proof.
  intros idx.
  assert (Hlen : length Tcp.full_times = 200) by apply linspace_length.
  assert (Hspec : forall t,
            idx t <= 200 /\
            (forall i g, i < idx t -> Tcp.full_times !! i = Some g -> (g < t)%Q) /\
            (forall i g, idx t <= i -> Tcp.full_times !! i = Some g -> (t <= g)%Q)).
  { intros t.
    destruct (searchsorted_insertion_point Tcp.full_times t full_times_monotone)
      as (H1 & H2 & H3).
    rewrite Hlen in H1. done. }
  destruct full_times_ends as ((g0 & Hg0 & E0) & (gl & Hgl & El)).
  split; [|split; [|split; [|split]]].
  - intros t Ht. destruct (Hspec t) as (_ & H2 & _).
    destruct (decide (idx t = 0)) as [|Hne]; [done|].
    specialize (H2 0 g0 ltac:(lia) Hg0). lra.
  - intros t Ht. destruct (Hspec t) as (H1 & _ & H3).
    destruct (decide (idx t = 200)) as [|Hne]; [done|].
    specialize (H3 199 gl ltac:(lia) Hgl). lra.
  - intros t Hlo Hhi. destruct (Hspec t) as (H1 & H2 & H3). split.
    + destruct (decide (1 <= idx t)) as [|Hne]; [done|].
      specialize (H3 0 g0 ltac:(lia) Hg0). lra.
    + destruct (decide (idx t <= 199)) as [|Hne]; [done|].
      specialize (H2 199 gl ltac:(lia) Hgl). lra.
  - exact grid_index_monotone.
  - intros j g Hg. destruct (Hspec g) as (H1 & H2 & H3).
    assert (Hj : j < 200).
    { apply lookup_lt_Some in Hg. by rewrite Hlen in Hg. }
    destruct (decide (idx g <= j)) as [Hle|Hgt].
    + destruct (decide (idx g = j)) as [|Hne]; [done|].
      destruct (lookup_lt_is_Some_2 Tcp.full_times (idx g)) as [g' Hg'].
      { rewrite Hlen. lia. }
      specialize (H3 (idx g) g' ltac:(lia) Hg').
      pose proof (full_times_strict (idx g) j g' g ltac:(lia) Hg' Hg). lra.
    + specialize (H2 j g ltac:(lia) Hg). lra.
Qed.

Lemma grid_index_properties_witness :
  Tcp.searchsorted Tcp.full_times (- (12)) = 0 /\
  Tcp.searchsorted Tcp.full_times (1 # 2) = 200 /\
  Tcp.searchsorted Tcp.full_times (- (3)) <= Tcp.searchsorted Tcp.full_times (- (2)).
Proof.
  destruct grid_index_properties as (Ha & Hb & _ & Hd & _).
  split; [apply Ha; by vm_compute|].
  split; [apply Hb; reflexivity|].
  apply Hd. by vm_compute.
Defined.

Section AlignedRows.

Import Tcp.

Lemma rel_times_lookup (current_time : Q) (ts : list Q) i x :
  map (fun t => (t - current_time)%Q) ts !! i = Some x ->
  exists t, ts !! i = Some t /\ x = (t - current_time)%Q.
Proof.
  intros Hx. change (map ?f ?l) with (f <$> l) in Hx.
  rewrite list_lookup_fmap in Hx.
  destruct (ts !! i) as [t|]; [|done].
  injection Hx as <-. by exists t.
Qed.

(** A filled row holds the vector of a stored sample that maps to it. *)
Lemma aligned_filled_source (current_time : Q) (w : window) aligned j d :
  update_plot current_time w = Some aligned ->
  aligned !! j = Some (Some d) ->
  exists i t,
    timestamps w !! i = Some t /\ data w !! i = Some d /\
    searchsorted full_times (t - current_time) = j.
Proof.
  unfold update_plot. destruct (length (data w) =? 0); [done|].
  intros [= <-] Hj. unfold align in Hj.
  assert (Hlt : j < num_steps).
  { apply lookup_lt_Some in Hj.
    by rewrite foldl_place_length, length_replicate in Hj. }
  rewrite foldl_place_lookup in Hj by (by rewrite ?length_replicate).
  destruct (last _) as [[x y]|] eqn:Hlast.
  2:{ by rewrite lookup_replicate_2 in Hj. }
  injection Hj as <-.
  apply last_Some in Hlast as [l' Hl'].
  assert (Hin : (x, y) ∈ filter (fun td : Q * sample =>
                   searchsorted full_times td.1 = j)
                  (zip (map (fun t => (t - current_time)%Q) (timestamps w)) (data w))).
  { rewrite Hl'. apply elem_of_app. right. by apply list_elem_of_singleton. }
  apply list_elem_of_filter in Hin as [HP Hin]. simpl in HP.
  apply elem_of_lookup_zip_with_1 in Hin as (i & x' & y' & [= -> ->] & Hx & Hy).
  destruct (rel_times_lookup _ _ i x' Hx) as (t & Ht & ->).
  by exists i, t.
Qed.

(** The row of a stored sample with an index on the grid is filled. *)
Lemma aligned_sample_drawn (current_time : Q) (w : window) aligned i t d :
  update_plot current_time w = Some aligned ->
  timestamps w !! i = Some t -> data w !! i = Some d ->
  searchsorted full_times (t - current_time) < num_steps ->
  exists d', aligned !! searchsorted full_times (t - current_time) = Some (Some d').
Proof.
  unfold update_plot. destruct (length (data w) =? 0); [done|].
  intros [= <-] Ht Hd Hlt. unfold align.
  set (j := searchsorted full_times (t - current_time)) in *.
  rewrite foldl_place_lookup by (by rewrite ?length_replicate).
  assert (Hin : ((t - current_time)%Q, d) ∈ filter (fun td : Q * sample =>
                   searchsorted full_times td.1 = j)
                  (zip (map (fun t => (t - current_time)%Q) (timestamps w)) (data w))).
  { apply list_elem_of_filter. split; [done|].
    apply (elem_of_lookup_zip_with_2 pair _ (data w) _ d ((t - current_time)%Q, d) i);
      [|done].
    change (map ?f ?l) with (f <$> l). by rewrite list_lookup_fmap, Ht. }
  destruct (last _) as [td|] eqn:Hlast; [by eexists|].
  apply last_None in Hlast. rewrite Hlast in Hin. by apply elem_of_nil in Hin.
Qed.

End AlignedRows.

(** X12. [update_plot] of the socket program never draws anything that is
    not in the window: a filled row of the aligned array is the vector of a
    stored sample whose time stamp maps to that row. And no stored sample
    with an index below 200 is dropped without a trace: its row is filled,
    by it or by a later sample with the same index. *)
Theorem aligned_rows_come_from_window (current_time : Q) (w : Tcp.window)
    (aligned : list (option Tcp.sample)) :
  Tcp.update_plot current_time w = Some aligned ->
  (forall j d,
     aligned !! j = Some (Some d) ->
     exists i t,
       Tcp.timestamps w !! i = Some t /\ Tcp.data w !! i = Some d /\
       Tcp.searchsorted Tcp.full_times (t - current_time) = j) /\
  (forall i t d,
     Tcp.timestamps w !! i = Some t -> Tcp.data w !! i = Some d ->
     Tcp.searchsorted Tcp.full_times (t - current_time) < Tcp.num_steps ->
     exists d',
       aligned !! Tcp.searchsorted Tcp.full_times (t - current_time) = Some (Some d')).
Proof.
  intros E. split.
  - intros j d. by apply aligned_filled_source.
  - intros i t d. by apply aligned_sample_drawn.
Qed.

Lemma aligned_rows_come_from_window_witness :
  let w := {| Tcp.data := [[1%N]; [2%N]]; Tcp.timestamps := [100; 105]%Q |} in
  exists aligned d',
    Tcp.update_plot 106 w = Some aligned /\
    aligned !! Tcp.searchsorted Tcp.full_times (105 - 106) = Some (Some d').
Proof.
  intros w.
  destruct (aligned_rows_come_from_window 106 w _ eq_refl) as [_ H].
  destruct (H 1 105%Q [2%N]) as (d' & Hd'); [reflexivity | reflexivity | vm_compute; lia |].
  eexists _, d'. split; [reflexivity | exact Hd'].
Defined.

(** ** The receiver thread *)

Section ReceiverThread.

Import Tcp.

Variable clock : nat -> Q.

(** With zero floats per record the condition of the inner loop is always
    true and the buffer never shrinks. *)
Lemma drain_zero_diverges fuel st : drain clock fuel 0 st = None.
Proof.
  revert st. induction fuel as [|fuel IH]; intros st; [done|].
  simpl. by rewrite IH.
Qed.

(** Pauses do not change what is delivered, and nothing is read after the
    loop has been left. *)
Lemma receiver_thread_received fuel n events st :
  receiver_thread clock fuel n events st
  = match receive_data_tcp clock fuel n (received events) st with
    | Some (out, st') =>
        Some (out, st', existsb (fun e => match e with
                                          | Stopped | RecvError => true
                                          | _ => false
                                          end) events)
    | None => None
    end.
Proof.
  revert st. induction events as [|e events IH]; intros st; [done|].
  destruct e as [| |chunk|]; simpl; try done.
  destruct (drain clock fuel n _) as [[out st2]|]; [|done].
  rewrite IH. by destruct (receive_data_tcp clock fuel n (received events) st2) as [[? ?]|].
Qed.

End ReceiverThread.

(** X13. The check [n > 0] of [start_observation] is what makes the
    receiver's inner loop end. With [n = 0] the loop never terminates,
    whatever the buffer holds. After an accepted start the stored bin count
    is positive, and for every sequence of received chunks the receiver
    terminates and delivers samples. *)
Theorem deframing_terminates_after_start :
  (forall clock fuel st, Tcp.drain clock fuel 0 st = None) /\
  (forall np fs_int n_int port_int a,
     Tcp.running a = false ->
     let a' := Tcp.start_observation np fs_int n_int port_int a in
     Tcp.running a' = true ->
     exists k,
       Tcp.n a' = Some k /\ (0 < k)%Z /\
       forall clock chunks fuel,
         length (concat chunks) < fuel ->
         exists out st,
           Tcp.receive_data_tcp clock fuel (Z.to_nat k) chunks Tcp.rx_init = Some (out, st)).
Proof.
  split; [exact drain_zero_diverges|].
  intros np fs_int n_int port_int a Hoff a' Hon. subst a'.
  destruct (tcp_start_running _ _ _ _ _ Hoff Hon) as (f & k & p & -> & -> & -> & Hgo).
  destruct (tcp_goes_through_positive _ _ _ Hgo) as [Hf Hk].
  rewrite (tcp_start_through np f k p a Hgo).
  exists k. split; [done|]. split; [done|].
  intros clock chunks fuel Hfuel.
  destruct (receive_records clock fuel (Z.to_nat k) chunks Tcp.rx_init) as (st & E & _);
    [lia | simpl; lia | done |].
  eauto.
Qed.

Lemma deframing_terminates_after_start_witness :
  let a' := Tcp.start_observation Np.roomy (Some 1000%Z) (Some 1%Z) (Some 9999%Z)
              Tcp.init in
  exists k, Tcp.n a' = Some k /\ (0 < k)%Z.
Proof.
  intros a'.
  destruct deframing_terminates_after_start as [_ H].
  destruct (H Np.roomy (Some 1000%Z) (Some 1%Z) (Some 9999%Z) Tcp.init eq_refl eq_refl)
    as (k & Hk & Hpos & _).
  exists k. split; [exact Hk | exact Hpos].
Defined.

(** X14. The receiver thread as a whole, with [n > 0] and an empty window
    at its start. Whatever pauses are interleaved, the samples it appends to
    [self.data] are the complete records of the bytes it read before leaving
    its loop, in order, and the rest of the bytes stays in its buffer. What
    [self.data] holds when the thread is done is a suffix of these samples,
    with the clock readings of their appends in [self.timestamps], and it is
    all of them when no cutoff has passed the first reading. The thread
    leaves the loop, and closes the connection, only when it finds the
    running flag cleared or when a read fails; nothing is read after that.
    An empty read, which is what a peer that has closed produces, does not
    end the thread. *)
Theorem receiver_thread_delivers (clock : nat -> Q) (n fuel : nat) (events : list Tcp.event) :
  0 < n -> length (concat (Tcp.received events)) < fuel ->
  let out := Tcp.records n (concat (Tcp.received events)) in
  exists st closed,
    Tcp.receiver_thread clock fuel n events Tcp.rx_init = Some (out, st, closed) /\
    Tcp.buffer st = Tcp.remainder n (concat (Tcp.received events)) /\
    (exists j,
       j <= length out /\
       Tcp.data (Tcp.win st) = drop j out /\
       Tcp.timestamps (Tcp.win st)
       = drop j (map (fun i => clock (2 * i)) (seq 0 (length out)))) /\
    ((forall i, i < length out -> (clock (2 * i + 1)%nat - 10 <= clock 0%nat)%Q) ->
     Tcp.data (Tcp.win st) = out /\
     Tcp.timestamps (Tcp.win st) = map (fun i => clock (2 * i)) (seq 0 (length out))) /\
    (closed = true <-> Tcp.Stopped ∈ events \/ Tcp.RecvError ∈ events) /\
    (forall before after,
       events = before ++ Tcp.Stopped :: after \/ events = before ++ Tcp.RecvError :: after ->
       Tcp.received events = Tcp.received before).
Proof.
  intros Hn Hfuel out.
  destruct (receive_records clock fuel n (Tcp.received events) Tcp.rx_init Hn)
    as (st & E & Hb); [simpl; lia | done |].
  simpl in E, Hb. fold out in E.
  destruct (receive_window clock fuel n _ _ st E) as (_ & Hj & Hall).
  eexists st, _. split; [by rewrite receiver_thread_received, E|].
  split; [exact Hb|]. split; [exact Hj|]. split; [exact Hall|]. split.
  - rewrite existsb_exists. split.
    + intros (e & Hin & He). apply list_elem_of_In in Hin.
      destruct e; [by left | done | done | by right].
    + intros [H|H]; apply list_elem_of_In in H; eauto.
  - assert (Hcut : forall before e l, (e = Tcp.Stopped \/ e = Tcp.RecvError) ->
              Tcp.received (before ++ e :: l) = Tcp.received before).
    { intros before e l He. induction before as [|b before IH]; simpl.
      - by destruct He as [-> | ->].
      - destruct b; try done; by rewrite IH. }
    intros before after [-> | ->]; apply Hcut; auto.
Qed.

Lemma receiver_thread_delivers_witness :
  let clock := fun k : nat => inject_Z (Z.of_nat k) in
  let events := [Tcp.Recv [x01; x02]; Tcp.Paused; Tcp.Recv []; Tcp.Recv [x03; x04; x05];
                 Tcp.RecvError; Tcp.Recv [x06; x07; x08]] in
  exists st,
    Tcp.receiver_thread clock 10 1 events Tcp.rx_init
    = Some ([[67305985%N]], st, true) /\
    Tcp.buffer st = [x05] /\
    Tcp.data (Tcp.win st) = [[67305985%N]] /\
    Tcp.timestamps (Tcp.win st) = [clock 0].
Proof.
  intros clock events.
  destruct (receiver_thread_delivers clock 1 10 events)
    as (st & closed & E & Hb & _ & Hall & Hc & _).
  - lia.
  - simpl. lia.
  - exists st. assert (closed = true) as ->.
    { apply Hc. right. apply list_elem_of_In. simpl. tauto. }
    split; [exact E|]. split; [exact Hb|].
    apply Hall. intros i Hi.
    assert (Hi' : i < 1) by exact Hi.
    destruct i as [|i]; [by vm_compute | lia].
Defined.

(** ** The receiver's window and the drawn rows in time order *)

Section ReceiverWindow.

Import Tcp.

Variable clock : nat -> Q.

Lemma stamped_last t (out : list sample) (x : sample) :
  last (stamped clock t (out ++ [x]))
  = Some (clock (t + 2 * length out), clock (S (t + 2 * length out)), x).
Proof. rewrite stamped_app. simpl. by rewrite last_snoc. Qed.

End ReceiverWindow.

(** X17. With a clock that never goes back and [n > 0], whatever chunks the
    receiver has processed: its loops have terminated, the stored time stamps
    are non-decreasing, the two lists of the window have the same length, two
    clock readings were made for each delivered sample, and, if a sample was
    delivered, every stored time stamp is within 10 s of the last clock
    reading made. *)
Theorem receiver_window_in_order (clock : nat -> Q) (n fuel : nat) (chunks : list (list byte)) :
  (forall k, (clock k <= clock (S k))%Q) ->
  0 < n -> length (concat chunks) < fuel ->
  exists out st,
    Tcp.receive_data_tcp clock fuel n chunks Tcp.rx_init = Some (out, st) /\
    Tcp.ticks st = 2 * length out /\
    StronglySorted Qle (Tcp.timestamps (Tcp.win st)) /\
    length (Tcp.data (Tcp.win st)) = length (Tcp.timestamps (Tcp.win st)) /\
    (out <> [] ->
     Forall (fun t => (clock (Tcp.ticks st - 1)%nat - 10 <= t)%Q)
            (Tcp.timestamps (Tcp.win st))).
Proof.
  intros Hmono Hn Hfuel.
  destruct (receive_records clock fuel n chunks Tcp.rx_init Hn) as (st & E & _);
    [simpl; lia | done |].
  simpl in E. eexists _, st. split; [exact E|].
  destruct (receive_run clock _ _ _ _ _ _ E) as [_ Ht]. simpl in Ht.
  destruct (receiver_window_invariants clock Hmono _ _ _ _ _ E) as (H1 & H2 & H3).
  split; [lia|]. split; [exact H1|]. split; [exact H2|].
  intros Hne. destruct (exists_last Hne) as (out' & x & Hout).
  rewrite Hout in H3, Ht. rewrite stamped_last in H3.
  rewrite length_app in Ht. simpl in Ht.
  replace (Tcp.ticks st - 1) with (S (0 + 2 * length out')) by lia.
  by eapply H3.
Qed.

Lemma receiver_window_in_order_witness :
  let clock := fun k : nat => inject_Z (Z.of_nat (7 * k)) in
  exists out st,
    Tcp.receive_data_tcp clock 20 1 [[x01; x02; x03; x04; x05; x06; x07; x08];
                                     [x09; x0a; x0b; x0c]] Tcp.rx_init
    = Some (out, st) /\
    StronglySorted Qle (Tcp.timestamps (Tcp.win st)).
Proof.
  intros clock.
  destruct (receiver_window_in_order clock 1 20
              [[x01; x02; x03; x04; x05; x06; x07; x08]; [x09; x0a; x0b; x0c]])
    as (out & st & E & _ & Hs & _).
  - intros k. unfold clock. rewrite <- Zle_Qle. lia.
  - lia.
  - simpl. lia.
  - exists out, st. split; [exact E | exact Hs].
Defined.

(** X18. The rows drawn by [update_plot] of the socket program are in time
    order: of two filled rows, the one further right holds a stored sample
    with a strictly later time stamp than the sample held by the other,
    whatever the order of the window. *)
Theorem aligned_rows_in_time_order (current_time : Q) (w : Tcp.window)
    (aligned : list (option Tcp.sample)) (j1 j2 : nat) (d1 d2 : Tcp.sample) :
  Tcp.update_plot current_time w = Some aligned ->
  j1 < j2 ->
  aligned !! j1 = Some (Some d1) -> aligned !! j2 = Some (Some d2) ->
  exists i1 i2 t1 t2,
    Tcp.timestamps w !! i1 = Some t1 /\ Tcp.data w !! i1 = Some d1 /\
    Tcp.timestamps w !! i2 = Some t2 /\ Tcp.data w !! i2 = Some d2 /\
    (t1 < t2)%Q.
Proof.
  intros E Hj H1 H2.
  destruct (aligned_filled_source _ _ _ _ _ E H1) as (i1 & t1 & Ht1 & Hd1 & Hi1).
  destruct (aligned_filled_source _ _ _ _ _ E H2) as (i2 & t2 & Ht2 & Hd2 & Hi2).
  exists i1, i2, t1, t2. repeat split; try done.
  destruct (Qlt_le_dec t1 t2) as [|Hle]; [done|]. exfalso.
  assert (Hm : (t2 - current_time <= t1 - current_time)%Q) by lra.
  apply grid_index_monotone in Hm. lia.
Qed.

Lemma aligned_rows_in_time_order_witness :
  let w := {| Tcp.data := [[1%N]; [2%N]]; Tcp.timestamps := [100; 105]%Q |} in
  exists aligned t1 t2,
    Tcp.update_plot 106 w = Some aligned /\
    Tcp.timestamps w !! 0 = Some t1 /\ Tcp.timestamps w !! 1 = Some t2 /\ (t1 < t2)%Q.
Proof.
  intros w.
  destruct (aligned_rows_in_time_order 106 w _ 80 180 [1%N] [2%N] eq_refl)
    as (i1 & i2 & t1 & t2 & _ & _ & _ & _ & Hlt);
    [lia | vm_compute; reflexivity | vm_compute; reflexivity |].
  eexists _, 100%Q, 105%Q. split; [reflexivity|]. split; [reflexivity|].
  split; [reflexivity|]. reflexivity.
Defined.
